(** * detect_secrets.core.usage: plugin option consolidation

    A shallow embedding of [detect_secrets/core/usage.py]: the plugin
    catalogue [PluginOptions.all_plugins], the consolidation pass
    [PluginOptions.consolidate_args] over an [argparse.Namespace], and the
    argparse type [PluginOptions._argparse_minmax_type].

    The namespace is the one mutable object the code shares with its
    caller, so every operation on it is written in a small state and
    exception monad: a computation takes the namespace and gives back
    either a raised exception or a value, together with the namespace as
    the code left it. *)

From Stdlib Require Import ZArith List Ascii String Floats.
From stdpp Require Import base option list strings gmap.

Local Open Scope string_scope.
Local Open Scope list_scope.
Set Warnings "-register-all".

(** ** Python values *)

(** The values the code stores in the namespace, reads from the
    descriptors or builds itself.  A [dict] keeps its insertion order, so
    it is an association list; every dict of this module is keyed by
    strings. *)
Inductive pyval : Type :=
| VNone
| VBool (b : bool)
| VInt (z : Z)
| VFloat (f : float)
| VStr (s : string)
| VTuple (items : list pyval)
| VList (items : list pyval)
| VDict (entries : list (string * pyval)).

Abbreviation pydict := (list (string * pyval)).

(** [argparse.Namespace]: attribute name to value. *)
Abbreviation namespace := (gmap string pyval).

(** The exceptions the modelled code can raise. *)
Inductive pyexn : Type :=
| AttributeError
| ValueError
| TypeError
| KeyError
| ArgumentTypeError (message : string).

(** [bool(v)], the test behind [if v] and [v and ...]. *)
Definition truthy (v : pyval) : bool :=
  match v with
  | VNone => false
  | VBool b => b
  | VInt z => negb (z =? 0)%Z
  | VFloat f => negb (PrimFloat.eqb f 0%float)
  | VStr s => negb (String.eqb s EmptyString)
  | VTuple items | VList items => negb (Nat.eqb (length items) 0)
  | VDict entries => negb (Nat.eqb (length entries) 0)
  end.

(** [v is None] *)
Definition is_none (v : pyval) : bool :=
  match v with
  | VNone => true
  | _ => false
  end.

(** ** Dicts *)

(** [d.get(k)] *)
Fixpoint dict_get (k : string) (d : pydict) : option pyval :=
  match d with
  | [] => None
  | (k', v) :: rest => if String.eqb k k' then Some v else dict_get k rest
  end.

(** [d[k] = v]: an existing key keeps its place, a new one goes last. *)
Fixpoint dict_set (k : string) (v : pyval) (d : pydict) : pydict :=
  match d with
  | [] => [(k, v)]
  | (k', v') :: rest =>
      if String.eqb k k' then (k, v) :: rest else (k', v') :: dict_set k v rest
  end.

(** [d.update(other)] *)
Definition dict_update (d other : pydict) : pydict :=
  fold_left (fun acc kv => dict_set (fst kv) (snd kv) acc) other d.

Definition dict_keys (d : pydict) : list string := map fst d.

(** ** The state and exception monad *)

Definition Py (A : Type) : Type := namespace -> (pyexn + A) * namespace.

Definition Py_ret {A} (a : A) : Py A := fun args => (inr a, args).

Definition Py_bind {A B} (m : Py A) (k : A -> Py B) : Py B :=
  fun args =>
    match m args with
    | (inl e, args') => (inl e, args')
    | (inr a, args') => k a args'
    end.

Definition raise {A} (e : pyexn) : Py A := fun args => (inl e, args).

#[global] Instance Py_mret : MRet Py := @Py_ret.
#[global] Instance Py_mbind : MBind Py := fun A B k m => Py_bind m k.

(** An exception or a value that does not touch the namespace. *)
Definition lift {A} (r : pyexn + A) : Py A :=
  match r with
  | inl e => raise e
  | inr a => mret a
  end.

(** [hasattr(args, name)] *)
Definition hasattr (name : string) : Py bool :=
  fun args => (inr (bool_decide (is_Some (args !! name))), args).

(** [getattr(args, name)] *)
Definition getattr (name : string) : Py pyval :=
  fun args =>
    match args !! name with
    | Some v => (inr v, args)
    | None => (inl AttributeError, args)
    end.

(** [getattr(args, name, dflt)] *)
Definition getattr_default (name : string) (dflt : pyval) : Py pyval :=
  fun args => (inr (default dflt (args !! name)), args).

(** [delattr(args, name)] *)
Definition delattr (name : string) : Py unit :=
  fun args =>
    match args !! name with
    | Some _ => (inr tt, delete name args)
    | None => (inl AttributeError, args)
    end.

(** [setattr(args, name, v)], written [args.name = v] *)
Definition setattr (name : string) (v : pyval) : Py unit :=
  fun args => (inr tt, <[name := v]> args).

(** [d[k]], which raises [KeyError] on a missing key. *)
Definition dict_getitem (k : string) (d : pydict) : Py pyval :=
  match dict_get k d with
  | Some v => mret v
  | None => raise KeyError
  end.

(** A [for] loop threading the locals it assigns. *)
Fixpoint for_each {A S} (body : A -> S -> Py S) (items : list A) (s : S) : Py S :=
  match items with
  | [] => mret s
  | x :: rest => s' ← body x s; for_each body rest s'
  end.

(** ** Sequence unpacking and flag names *)

(** [a, b = v] on the kinds of value of [pyval]: a sequence of exactly
    two items unpacks, any other length raises [ValueError], a value that
    cannot be iterated raises [TypeError].  Iterating a string gives its
    characters, iterating a dict gives its keys.  Strings are taken to be
    ASCII, one character per byte.  Python unpacks every iterable of two
    items; the iterables that are not among these values (sets,
    generators and the like) are outside the model. *)
Definition unpack_pair (v : pyval) : pyexn + (pyval * pyval) :=
  match v with
  | VTuple [a; b] | VList [a; b] => inr (a, b)
  | VTuple _ | VList _ => inl ValueError
  | VStr (String c1 (String c2 EmptyString)) =>
      inr (VStr (String c1 EmptyString), VStr (String c2 EmptyString))
  | VStr _ => inl ValueError
  | VDict [(k1, _); (k2, _)] => inr (VStr k1, VStr k2)
  | VDict _ => inl ValueError
  | VNone | VBool _ | VInt _ | VFloat _ => inl TypeError
  end.

(** [s[2:]], on ASCII text: a character is a byte. *)
Definition str_from2 (s : string) : string :=
  match s with
  | String _ (String _ rest) => rest
  | _ => EmptyString
  end.

(** [s.replace(old, new)] for one-character [old] and [new]. *)
Fixpoint str_replace (old new : Ascii.ascii) (s : string) : string :=
  match s with
  | EmptyString => EmptyString
  | String c rest =>
      String (if Ascii.eqb c old then new else c) (str_replace old new rest)
  end.

(** What [flag_text[2:].replace('-', '_')] gives for a string. *)
Definition argument_name (flag_text : string) : string :=
  str_replace "-"%char "_"%char (str_from2 flag_text).

(** [needle in hay] for two strings: [needle] occurs in [hay]. *)
Fixpoint str_contains (needle hay : string) : bool :=
  String.prefix needle hay
  || match hay with
     | EmptyString => false
     | String _ rest => str_contains needle rest
     end.

(** [item in container] for a string [item]: a key of a dict, an item of a
    list or tuple (only a string equals a string), a substring of a
    string; the other values cannot be searched. *)
Definition py_contains (item : string) (container : pyval) : pyexn + bool :=
  match container with
  | VDict entries => inr (existsb (String.eqb item) (dict_keys entries))
  | VList items | VTuple items =>
      inr (existsb (fun x => match x with
                             | VStr s => String.eqb item s
                             | _ => false
                             end) items)
  | VStr s => inr (str_contains item s)
  | VNone | VBool _ | VInt _ | VFloat _ => inl TypeError
  end.

(** ** The declarations of the plugin option group

    [PluginOptions] asks argparse for an argument group and calls
    [add_argument] on it.  The calls are kept as the code makes them, with
    the keyword arguments of each and in their order.  Whether argparse
    grants a call is argparse's business and is not modelled: it refuses,
    with [ArgumentError], a flag that the parser of the group already
    has. *)

(** The two callables passed as [type]: [str] and
    [_argparse_minmax_type]. *)
Inductive argument_type : Type :=
| TypeStr
| TypeMinMax.

(** One call of [add_argument]; a keyword the call does not give is
    [None]. *)
Record Argument : Type := mkArgument {
  name_or_flags : list string;
  arg_action : option string;
  arg_nargs : option pyval;
  arg_const : option pyval;
  arg_default : option pyval;
  arg_type : option argument_type;
  arg_help : option string;
  arg_metavar : option string;
  arg_dest : option string;
  arg_version : option string;
}.

Definition argument (name_or_flags : list string) : Argument :=
  mkArgument name_or_flags None None None None None None None None None.

Definition with_action (v : string) (a : Argument) : Argument :=
  mkArgument (name_or_flags a) (Some v) (arg_nargs a) (arg_const a) (arg_default a)
    (arg_type a) (arg_help a) (arg_metavar a) (arg_dest a) (arg_version a).

Definition with_nargs (v : pyval) (a : Argument) : Argument :=
  mkArgument (name_or_flags a) (arg_action a) (Some v) (arg_const a) (arg_default a)
    (arg_type a) (arg_help a) (arg_metavar a) (arg_dest a) (arg_version a).

Definition with_default (v : pyval) (a : Argument) : Argument :=
  mkArgument (name_or_flags a) (arg_action a) (arg_nargs a) (arg_const a) (Some v)
    (arg_type a) (arg_help a) (arg_metavar a) (arg_dest a) (arg_version a).

Definition with_type (v : argument_type) (a : Argument) : Argument :=
  mkArgument (name_or_flags a) (arg_action a) (arg_nargs a) (arg_const a) (arg_default a)
    (Some v) (arg_help a) (arg_metavar a) (arg_dest a) (arg_version a).

Definition with_help (v : string) (a : Argument) : Argument :=
  mkArgument (name_or_flags a) (arg_action a) (arg_nargs a) (arg_const a) (arg_default a)
    (arg_type a) (Some v) (arg_metavar a) (arg_dest a) (arg_version a).

(** What [add_argument_group] returns. *)
Record ArgumentGroup : Type := mkArgumentGroup {
  group_title : string;
  group_description : string;
  group_arguments : list Argument;
}.

(** [group.add_argument(...)], as a call made: it is put after the calls
    the group already got. *)
Definition group_add_argument (a : Argument) (g : ArgumentGroup) : ArgumentGroup :=
  mkArgumentGroup (group_title g) (group_description g) (group_arguments g ++ [a]).

(** ** Plugin descriptors *)

(** The namedtuple [PluginDescriptor]. *)
Record PluginDescriptor : Type := mkPluginDescriptor {
  classname : string;
  disable_flag_text : string;
  disable_help_text : string;
  related_args : list pyval;
}.

(** [PluginDescriptor.__new__]: a missing or empty [related_args] becomes
    the empty list. *)
Definition PluginDescriptor_new (classname disable_flag_text disable_help_text : string)
    (related_args : option (list pyval)) : PluginDescriptor :=
  mkPluginDescriptor classname disable_flag_text disable_help_text
    (match related_args with
     | Some (x :: rest) => x :: rest
     | _ => []
     end).

Module PluginOptions.

(** The class attribute [all_plugins], in its declared order. *)
Definition all_plugins : list PluginDescriptor :=
  [ PluginDescriptor_new "HexHighEntropyString" "--no-hex-string-scan"
      "Disables scanning for hex high entropy strings"
      (Some [VTuple [VStr "--hex-limit"; VInt 3]]);
    PluginDescriptor_new "Base64HighEntropyString" "--no-base64-string-scan"
      "Disables scanning for base64 high entropy strings"
      (Some [VTuple [VStr "--base64-limit"; VFloat 4.5%float]]);
    PluginDescriptor_new "PrivateKeyDetector" "--no-private-key-scan"
      "Disables scanning for private keys."
      None;
    PluginDescriptor_new "BasicAuthDetector" "--no-basic-auth-scan"
      "Disables scanning for Basic Auth formatted URIs."
      None;
    PluginDescriptor_new "KeywordDetector" "--no-keyword-scan"
      "Disables scanning for secret keywords."
      None;
    PluginDescriptor_new "AWSKeyDetector" "--no-aws-key-scan"
      "Disables scanning for AWS keys."
      None;
    PluginDescriptor_new "SlackDetector" "--no-slack-scan"
      "Disables scanning for Slack tokens."
      None ].

(** [_convert_flag_text_to_argument_name]: [flag_text[2:].replace('-', '_')].
    A tuple or a list can be sliced but has no [replace]; the other
    values cannot be sliced. *)
Definition _convert_flag_text_to_argument_name (flag_text : pyval) : pyexn + string :=
  match flag_text with
  | VStr s => inr (argument_name s)
  | VTuple _ | VList _ => inl AttributeError
  | VNone | VBool _ | VInt _ | VFloat _ | VDict _ => inl TypeError
  end.

(** The [try] ... [except ValueError] around the unpacking of one entry
    of [related_args]. *)
Definition unpack_related_arg (related_arg_tuple : pyval) : Py (pyval * pyval) :=
  match unpack_pair related_arg_tuple with
  | inr (flag_name, default_value) => mret (flag_name, default_value)
  | inl ValueError => mret (related_arg_tuple, VNone)
  | inl e => raise e
  end.

(** The body of the inner loop, over the locals [related_args] and
    [is_using_default_value]. *)
Definition consolidate_related_arg (related_arg_tuple : pyval)
    (locals : pydict * pydict) : Py (pydict * pydict) :=
  let '(related_args, is_using_default_value) := locals in
  '(flag_name, default_value) ← unpack_related_arg related_arg_tuple;
  arg_name ← lift (_convert_flag_text_to_argument_name flag_name);
  v ← getattr arg_name;
  let related_args := dict_set arg_name v related_args in
  _ ← delattr arg_name;
  use_default ←
    (if truthy default_value then
       current ← dict_getitem arg_name related_args; mret (is_none current)
     else
       mret false);
  if use_default : bool then
    mret (dict_set arg_name default_value related_args,
          dict_set arg_name (VBool true) is_using_default_value)
  else
    mret (related_args, is_using_default_value).

(** The body of the outer loop, over the locals [active_plugins] and
    [is_using_default_value]. *)
Definition consolidate_plugin (plugin : PluginDescriptor)
    (locals : pydict * pydict) : Py (pydict * pydict) :=
  let '(active_plugins, is_using_default_value) := locals in
  arg_name ← lift (_convert_flag_text_to_argument_name (VStr (disable_flag_text plugin)));
  is_disabled ← getattr_default arg_name (VBool false);
  _ ← delattr arg_name;
  if truthy is_disabled then
    mret (active_plugins, is_using_default_value)
  else
    '(related_args, is_using_default_value) ←
      for_each consolidate_related_arg (related_args plugin) ([], is_using_default_value);
    mret (dict_update active_plugins [(classname plugin, VDict related_args)],
          is_using_default_value).

(** [consolidate_args] over a given catalogue. *)
Definition consolidate_args_over (plugins : list PluginDescriptor) : Py unit :=
  canary ← hasattr "hex_limit";
  if negb canary then
    mret tt
  else
    '(active_plugins, is_using_default_value) ←
      for_each consolidate_plugin plugins ([], []);
    _ ← setattr "plugins" (VDict active_plugins);
    setattr "is_using_default_value" (VDict is_using_default_value).

(** [PluginOptions.consolidate_args(args)] *)
Definition consolidate_args : Py unit := consolidate_args_over all_plugins.

(** One round of the list comprehension of [get_disabled_plugins]: the
    class name is kept when it is [not in args.plugins]. *)
Definition disabled_plugin_step (plugin : PluginDescriptor)
    (result : list string) : Py (list string) :=
  plugins ← getattr "plugins";
  found ← lift (py_contains (classname plugin) plugins);
  mret (if found : bool then result else result ++ [classname plugin]).

(** [get_disabled_plugins] over a given catalogue. *)
Definition get_disabled_plugins_over (plugins : list PluginDescriptor) : Py (list string) :=
  for_each disabled_plugin_step plugins [].

(** [PluginOptions.get_disabled_plugins(args)] *)
Definition get_disabled_plugins : Py (list string) :=
  get_disabled_plugins_over all_plugins.

(** [PluginOptions.__init__]: the argument group [plugins] it asks the
    parser for, with no call of [add_argument] made yet. *)
Definition plugins_group : ArgumentGroup :=
  mkArgumentGroup "plugins"
    ("Configure settings for each secret scanning "
     ++ "ruleset. By default, all plugins are enabled "
     ++ "unless explicitly disabled.")%string
    [].

Definition high_entropy_help_text : string :=
  ("Sets the entropy limit for high entropy strings. "
   ++ "Value must be between 0.0 and 8.0, ")%string.

(** [_add_custom_limits] *)
Definition _add_custom_limits (group : ArgumentGroup) : ArgumentGroup :=
  group_add_argument
    (with_help (high_entropy_help_text ++ "defaults to 3.0.")%string $
     with_nargs (VStr "?") $
     with_type TypeMinMax $
     argument ["--hex-limit"])
    (group_add_argument
       (with_help (high_entropy_help_text ++ "defaults to 4.5.")%string $
        with_nargs (VStr "?") $
        with_type TypeMinMax $
        argument ["--base64-limit"])
       group).

(** [_add_opt_out_options] over a given catalogue. *)
Definition _add_opt_out_options_over (plugins : list PluginDescriptor)
    (group : ArgumentGroup) : ArgumentGroup :=
  fold_left
    (fun group plugin =>
       group_add_argument
         (with_default (VBool false) $
          with_help (disable_help_text plugin) $
          with_action "store_true" $
          argument [disable_flag_text plugin])
         group)
    plugins group.

(** [add_arguments] over a given catalogue: the limits, then the opt-out
    flags. *)
Definition add_arguments_over (plugins : list PluginDescriptor)
    (group : ArgumentGroup) : ArgumentGroup :=
  _add_opt_out_options_over plugins (_add_custom_limits group).

Section MinMax.

(** The builtin [float] on strings; [None] stands for its [ValueError]. *)
Variable py_float : string -> option float.

(** [_argparse_minmax_type]: the comparisons are Python's, so both are
    false on a NaN. *)
Definition _argparse_minmax_type (string : string) : pyexn + float :=
  match py_float string with
  | None => inl ValueError
  | Some value =>
      if (value <? 0)%float || (8 <? value)%float then
        inl (ArgumentTypeError (string ++ " must be between 0.0 and 8.0")%string)
      else
        inr value
  end.

End MinMax.

End PluginOptions.

Module ParserBuilder.

(** [ParserBuilder.parse_args]: the argparse parser first, consolidation
    on its output only.  The parser is argparse's; it either exits with
    an error or hands over a namespace. *)
Definition parse_args (parser : list string -> pyexn + namespace)
    (argv : list string) : pyexn + namespace :=
  match parser argv with
  | inl e => inl e
  | inr output =>
      match PluginOptions.consolidate_args output with
      | (inl e, _) => inl e
      | (inr _, output') => inr output'
      end
  end.

End ParserBuilder.

(** ** What a run of the loops computes

    The closed forms below are read off the loops: which names a
    descriptor owns in the namespace, whether it is disabled, and the
    dicts and the namespace a complete run leaves.  The theorems relate
    them to the code. *)

Import PluginOptions.

(** An entry of [related_args] of the documented shape, a flag and its
    default value. *)
Definition pair_entry (e : pyval) : Prop :=
  exists flag dflt, e = VTuple [VStr flag; dflt].

Definition entry_arg (e : pyval) : string :=
  match e with
  | VTuple (VStr flag :: _) => argument_name flag
  | _ => EmptyString
  end.

Definition entry_default (e : pyval) : pyval :=
  match e with
  | VTuple [_; dflt] => dflt
  | _ => VNone
  end.

Definition disable_arg (p : PluginDescriptor) : string :=
  argument_name (disable_flag_text p).

Definition related_names (p : PluginDescriptor) : list string :=
  map entry_arg (related_args p).

Definition plugin_names (p : PluginDescriptor) : list string :=
  disable_arg p :: related_names p.

Definition catalog_names (ps : list PluginDescriptor) : list string :=
  flat_map plugin_names ps.

(** The raw value of an attribute that is there. *)
Definition raw (args : namespace) (name : string) : pyval :=
  default VNone (args !! name).

Definition is_disabled (args : namespace) (p : PluginDescriptor) : bool :=
  truthy (default (VBool false) (args !! disable_arg p)).

Definition defaulted (args : namespace) (e : pyval) : bool :=
  truthy (entry_default e) && is_none (raw args (entry_arg e)).

Definition consolidated_value (args : namespace) (e : pyval) : pyval :=
  if defaulted args e then entry_default e else raw args (entry_arg e).

Definition params_of (args : namespace) (es : list pyval) : pydict :=
  map (fun e => (entry_arg e, consolidated_value args e)) es.

Definition defaults_of (args : namespace) (es : list pyval) : pydict :=
  map (fun e => (entry_arg e, VBool true)) (filter (fun e => defaulted args e = true) es).

Definition enabled (args : namespace) (ps : list PluginDescriptor) : list PluginDescriptor :=
  filter (fun p => is_disabled args p = false) ps.

Definition active_of (args : namespace) (ps : list PluginDescriptor) : pydict :=
  map (fun p => (classname p, VDict (params_of args (related_args p)))) (enabled args ps).

Definition using_of (args : namespace) (ps : list PluginDescriptor) : pydict :=
  flat_map (fun p => defaults_of args (related_args p)) (enabled args ps).

Definition consumed (args : namespace) (p : PluginDescriptor) : list string :=
  if is_disabled args p then [disable_arg p] else plugin_names p.

Definition delete_all (names : list string) (args : namespace) : namespace :=
  fold_left (fun m k => delete k m) names args.

(** The catalogue as the descriptors' comments describe it: entries are
    pairs, no argument is shared, class names are unique, and no flag
    collides with the two attributes consolidation sets. *)
Record catalog_wf (ps : list PluginDescriptor) : Prop := {
  wf_entries : Forall (fun p => Forall pair_entry (related_args p)) ps;
  wf_names : NoDup (catalog_names ps);
  wf_classnames : NoDup (map classname ps);
  wf_plugins_free : "plugins" ∉ catalog_names ps;
  wf_using_free : "is_using_default_value" ∉ catalog_names ps;
}.

(** The namespace argparse hands over once the plugin option group was
    declared: every flag of the group has its attribute. *)
Definition declared (ps : list PluginDescriptor) (args : namespace) : Prop :=
  Forall (fun k => is_Some (args !! k)) (catalog_names ps).

Definition plugin_group_declared (args : namespace) : Prop :=
  declared all_plugins args.

(** A complete run of [consolidate_args]: it returned, leaving the
    namespace [args'] with the dicts [active] and [ud] as its attributes
    [plugins] and [is_using_default_value]. *)
Definition consolidated (args args' : namespace) (active ud : pydict) : Prop :=
  consolidate_args args = (inr tt, args')
  /\ args' !! "plugins" = Some (VDict active)
  /\ args' !! "is_using_default_value" = Some (VDict ud).

(** [f == z] for a float and an int: Python compares the exact values. *)
Definition float_eq_int (f : float) (z : Z) : bool :=
  match Prim2SF f with
  | S754_zero _ => (z =? 0)%Z
  | S754_finite s m e =>
      let sm := if s then Z.neg m else Z.pos m in
      if (0 <=? e)%Z then (z =? sm * 2 ^ e)%Z else (z * 2 ^ (- e) =? sm)%Z
  | S754_infinity _ | S754_nan => false
  end.

(** [a == b] between two numbers, each an int or a float. *)
Definition py_num_eq (a b : pyval) : bool :=
  match a, b with
  | VInt x, VInt y => (x =? y)%Z
  | VFloat x, VFloat y => PrimFloat.eqb x y
  | VInt x, VFloat y | VFloat y, VInt x => float_eq_int y x
  | _, _ => false
  end.

(** [0.0 <= f <= 8.0], the range the help text of the limits gives. *)
Definition in_limits (f : float) : bool :=
  (0 <=? f)%float && (f <=? 8)%float.



(** ** Namespaces and catalogues for the examples *)

(** [scan] with [--no-base64-string-scan -vv] and no limit given. *)
Definition scenario_args : namespace :=
  list_to_map
    [ ("action", VStr "scan"); ("path", VStr "."); ("verbose", VInt 2);
      ("hex_limit", VNone); ("base64_limit", VNone);
      ("no_hex_string_scan", VBool false); ("no_base64_string_scan", VBool true);
      ("no_private_key_scan", VBool false); ("no_basic_auth_scan", VBool false);
      ("no_keyword_scan", VBool false); ("no_aws_key_scan", VBool false);
      ("no_slack_scan", VBool false) ].

(** The pre-commit hook with [--hex-limit 0.0]. *)
Definition explicit_zero_args : namespace :=
  list_to_map
    [ ("filenames", VList [VStr "setup.py"]); ("baseline", VList [VStr ".secrets.baseline"]);
      ("hex_limit", VFloat 0%float); ("base64_limit", VNone);
      ("no_hex_string_scan", VBool false); ("no_base64_string_scan", VBool false);
      ("no_private_key_scan", VBool false); ("no_basic_auth_scan", VBool false);
      ("no_keyword_scan", VBool false); ("no_aws_key_scan", VBool false);
      ("no_slack_scan", VBool false) ].

(** [audit .secrets.baseline]: the plugin option group is not declared. *)
Definition audit_args : namespace :=
  list_to_map
    [ ("action", VStr "audit"); ("filename", VList [VStr ".secrets.baseline"]);
      ("diff", VBool false); ("verbose", VNone) ].

(** A namespace with the canary and the limits, but without the disable
    flag of the Slack detector. *)
Definition no_slack_flag_args : namespace := delete "no_slack_scan" scenario_args.




(** The builtin [float] on the strings the examples use, with 8.01 and
    -0.1 read as the nearest doubles; any other string is answered like a
    non-numeric one.  The theorems hold for every reading of [float];
    this one only instantiates them. *)
Definition float_of_literal (s : string) : option float :=
  if String.eqb s "0.0" then Some 0%float
  else if String.eqb s "8.0" then Some 8%float
  else if String.eqb s "8.01" then Some 0x1.0051eb851eb85p+3%float
  else if String.eqb s "-0.1" then Some (-0x1.999999999999ap-4)%float
  else if String.eqb s "nan" then Some nan
  else None.

(** What a computation may do besides raising [AttributeError]: return,
    having at most deleted attributes. *)
Definition returns_or_misses {A} (m : Py A) (args : namespace) : Prop :=
  (exists a args', m args = (inr a, args')
                   /\ forall k, args !! k = None -> args' !! k = None)
  \/ (exists args', m args = (inl AttributeError, args')).

Definition SFis_nan (a : spec_float) : bool :=
  match a with
  | S754_nan => true
  | _ => false
  end.

(** What a descriptor needs of the namespace for its round of the loop
    to get through: its disable flag, and its related arguments unless it
    is disabled. *)
Definition runnable_plugin (args : namespace) (p : PluginDescriptor) : Prop :=
  is_Some (args !! disable_arg p)
  /\ (is_disabled args p = false ->
      Forall (fun k => is_Some (args !! k)) (related_names p)).

Definition runnable (ps : list PluginDescriptor) (args : namespace) : Prop :=
  Forall (runnable_plugin args) ps.

(** A computation that leaves of the namespace only what was there. *)
Definition shrinking {A} (m : Py A) : Prop :=
  forall args r args', m args = (r, args') -> args' ⊆ args.


(** The flags and names declared on an argument group. *)
Definition group_flags (g : ArgumentGroup) : list string :=
  flat_map name_or_flags (group_arguments g).

(** The namespace consolidation leaves of [scenario_args]. *)
Definition consolidated_scenario_args : namespace := (consolidate_args scenario_args).2.

(** * Theorems *)

(** ** Facts about dicts *)

Lemma dict_get_app k (d1 d2 : pydict) :
  dict_get k (d1 ++ d2) = match dict_get k d1 with Some v => Some v | None => dict_get k d2 end.
Proof.
  induction d1 as [|[k' v'] d1 IH]; simpl; [done|].
  destruct (String.eqb k k'); done.
Qed.

Lemma dict_get_None k (d : pydict) : dict_get k d = None <-> k ∉ dict_keys d.
Proof.
  induction d as [|[k' v'] d IH]; simpl.
  - split; intros; [apply not_elem_of_nil | reflexivity].
  - rewrite not_elem_of_cons. destruct (String.eqb_spec k k') as [->|Hne].
    + split; [done | intros [? _]; done].
    + rewrite IH. split; [auto | by intros [_ ?]].
Qed.

Lemma dict_get_elem_of k v (d : pydict) :
  NoDup (dict_keys d) -> (k, v) ∈ d -> dict_get k d = Some v.
Proof.
  induction d as [|[k' v'] d IH]; simpl; intros Hnd Hin.
  - by apply elem_of_nil in Hin.
  - apply NoDup_cons in Hnd as [Hk' Hnd].
    apply elem_of_cons in Hin as [Heq|Hin].
    + injection Heq as -> ->. by rewrite String.eqb_refl.
    + destruct (String.eqb_spec k k') as [->|Hne]; [|by apply IH].
      exfalso. apply Hk'. apply list_elem_of_fmap. by exists (k', v).
Qed.

Lemma dict_set_fresh k v (d : pydict) :
  k ∉ dict_keys d -> dict_set k v d = d ++ [(k, v)].
Proof.
  induction d as [|[k' v'] d IH]; simpl; intros Hk; [done|].
  apply not_elem_of_cons in Hk as [Hne Hk].
  destruct (String.eqb_spec k k') as [->|_]; [done|]. by rewrite IH.
Qed.

Lemma dict_set_last k v w (d : pydict) :
  k ∉ dict_keys d -> dict_set k w (d ++ [(k, v)]) = d ++ [(k, w)].
Proof.
  induction d as [|[k' v'] d IH]; simpl; intros Hk.
  - by rewrite String.eqb_refl.
  - apply not_elem_of_cons in Hk as [Hne Hk].
    destruct (String.eqb_spec k k') as [->|_]; [done|]. by rewrite IH.
Qed.

Lemma dict_get_last k v (d : pydict) :
  k ∉ dict_keys d -> dict_get k (d ++ [(k, v)]) = Some v.
Proof.
  intros Hk. rewrite dict_get_app. apply dict_get_None in Hk as ->.
  simpl. by rewrite String.eqb_refl.
Qed.

(** ** Deleting a list of names *)

Lemma lookup_delete_all names (args : namespace) k :
  delete_all names args !! k = if decide (k ∈ names) then None else args !! k.
Proof.
  unfold delete_all. revert args.
  induction names as [|n names IH]; intros args; cbn [fold_left].
  - rewrite decide_False; [done | apply not_elem_of_nil].
  - rewrite IH. destruct (decide (k ∈ names)) as [Hin|Hnin].
    + rewrite decide_True; [done | by right].
    + destruct (decide (k = n)) as [->|Hne].
      * rewrite lookup_delete_eq. rewrite decide_True; [done | left].
      * rewrite lookup_delete_ne by done.
        rewrite decide_False; [done | by intros [?|?]%elem_of_cons].
Qed.

Lemma delete_all_app n1 n2 (args : namespace) :
  delete_all (n1 ++ n2) args = delete_all n2 (delete_all n1 args).
Proof. unfold delete_all. by rewrite fold_left_app. Qed.

(** ** One entry, one descriptor *)

Ltac py_unfold :=
  unfold dict_getitem, lift, raise, getattr, getattr_default, delattr, setattr, hasattr;
  unfold mbind, mret, Py_mbind, Py_mret, Py_bind, Py_ret.

Lemma related_arg_step flag dflt (ra ud : pydict) (args : namespace) v :
  args !! argument_name flag = Some v ->
  argument_name flag ∉ dict_keys ra ->
  consolidate_related_arg (VTuple [VStr flag; dflt]) (ra, ud) args =
    (inr (if truthy dflt && is_none v
          then (ra ++ [(argument_name flag, dflt)],
                dict_set (argument_name flag) (VBool true) ud)
          else (ra ++ [(argument_name flag, v)], ud)),
     delete (argument_name flag) args).
Proof.
  intros Hv Hfresh. unfold consolidate_related_arg, unpack_related_arg.
  cbn [unpack_pair]. py_unfold. cbn [_convert_flag_text_to_argument_name].
  rewrite !Hv. rewrite (dict_set_fresh _ _ _ Hfresh).
  destruct (truthy dflt); cbn [andb]; [|done].
  rewrite (dict_get_last _ _ _ Hfresh).
  destruct (is_none v); [|done]. by rewrite (dict_set_last _ _ _ _ Hfresh).
Qed.

Lemma related_loop_spec (es : list pyval) (args0 : namespace) :
  Forall pair_entry es ->
  NoDup (map entry_arg es) ->
  forall (args : namespace) (ra ud : pydict),
    (forall k, k ∈ map entry_arg es -> is_Some (args !! k) /\ args !! k = args0 !! k) ->
    (forall k, k ∈ map entry_arg es -> (k ∉ dict_keys ra) /\ (k ∉ dict_keys ud)) ->
    for_each consolidate_related_arg es (ra, ud) args =
      (inr (ra ++ params_of args0 es, ud ++ defaults_of args0 es),
       delete_all (map entry_arg es) args).
Proof.
  intros Hwf. induction Hwf as [|e es [flag [dflt ->]] _ IH];
    intros Hnd args ra ud Hargs Hfresh.
  - simpl. by rewrite !app_nil_r.
  - cbn [map entry_arg] in *. apply NoDup_cons in Hnd as [Hhd Hnd].
    destruct (Hargs (argument_name flag)) as [[v Hv] Hv0]; [left|].
    destruct (Hfresh (argument_name flag)) as [Hra Hud]; [left|].
    cbn [for_each]. unfold mbind at 1, Py_mbind, Py_bind.
    rewrite (related_arg_step _ _ _ _ _ _ Hv Hra).
    assert (Hdef : defaulted args0 (VTuple [VStr flag; dflt]) = truthy dflt && is_none v).
    { unfold defaulted, raw. cbn [entry_default entry_arg]. by rewrite <- Hv0, Hv. }
    assert (Hargs' : forall k, k ∈ map entry_arg es ->
              is_Some (delete (argument_name flag) args !! k)
              /\ delete (argument_name flag) args !! k = args0 !! k).
    { intros k Hk. rewrite lookup_delete_ne by (intros <-; done).
      apply Hargs. by right. }
    unfold params_of, defaults_of, consolidated_value.
    cbn [map filter list_filter]. rewrite Hdef.
    destruct (truthy dflt && is_none v) eqn:Hb.
    + rewrite IH; [| done | done |].
      * cbn [map app entry_default entry_arg delete_all fold_left].
        rewrite decide_True by done. cbn [map].
        rewrite (dict_set_fresh _ _ _ Hud), <- !app_assoc. done.
      * intros k Hk. destruct (Hfresh k) as [Hkra Hkud]; [by right|].
        unfold dict_keys in *. rewrite !map_app. cbn [map fst].
        rewrite dict_set_fresh by done. rewrite map_app. cbn [map fst].
        rewrite !not_elem_of_app, !not_elem_of_cons.
        assert (k <> argument_name flag) by (intros ->; done).
        repeat split; try done; apply not_elem_of_nil.
    + rewrite IH; [| done | done |].
      * cbn [map app entry_default entry_arg delete_all fold_left raw].
        rewrite decide_False by done.
        unfold raw. rewrite <- Hv0, Hv. cbn [default]. rewrite <- !app_assoc. done.
      * intros k Hk. destruct (Hfresh k) as [Hkra Hkud]; [by right|].
        unfold dict_keys in *. rewrite !map_app. cbn [map fst].
        rewrite !not_elem_of_app, !not_elem_of_cons.
        assert (k <> argument_name flag) by (intros ->; done).
        repeat split; try done; apply not_elem_of_nil.
Qed.

Lemma dict_keys_app (d1 d2 : pydict) : dict_keys (d1 ++ d2) = dict_keys d1 ++ dict_keys d2.
Proof. apply map_app. Qed.

Lemma dict_keys_params_of args es : dict_keys (params_of args es) = map entry_arg es.
Proof. unfold dict_keys, params_of. rewrite map_map. done. Qed.

Lemma dict_keys_defaults_of args es k :
  k ∈ dict_keys (defaults_of args es) -> k ∈ map entry_arg es.
Proof.
  unfold dict_keys, defaults_of. rewrite map_map. cbn [fst].
  intros (e & -> & He)%list_elem_of_fmap.
  apply list_elem_of_fmap. exists e. split; [done|].
  by apply list_elem_of_filter in He as [_ He].
Qed.

Lemma plugin_step (p : PluginDescriptor) (args0 args : namespace) (active ud : pydict) :
  Forall pair_entry (related_args p) ->
  NoDup (plugin_names p) ->
  (forall k, k ∈ plugin_names p -> is_Some (args !! k) /\ args !! k = args0 !! k) ->
  classname p ∉ dict_keys active ->
  (forall k, k ∈ related_names p -> k ∉ dict_keys ud) ->
  consolidate_plugin p (active, ud) args =
    (inr (if is_disabled args0 p then (active, ud)
          else (active ++ [(classname p, VDict (params_of args0 (related_args p)))],
                ud ++ defaults_of args0 (related_args p))),
     delete_all (consumed args0 p) args).
Proof.
  intros Hwf Hnd Hargs Hcls Hud.
  unfold plugin_names in *. apply NoDup_cons in Hnd as [Hhd Hnd].
  destruct (Hargs (disable_arg p)) as [[d Hd] Hd0]; [left|].
  unfold consolidate_plugin, consumed, is_disabled. rewrite <- Hd0, Hd. cbn [default].
  unfold disable_arg in *.
  py_unfold. cbn [_convert_flag_text_to_argument_name].
  rewrite Hd. cbn [default id]. destruct (truthy d); [done|].
  rewrite (related_loop_spec (related_args p) args0 Hwf Hnd).
  - cbn [app dict_update fold_left fst snd delete_all].
    by rewrite dict_set_fresh.
  - intros k Hk. rewrite lookup_delete_ne by (intros <-; done).
    apply Hargs. by right.
  - intros k Hk. split; [apply not_elem_of_nil | by apply Hud].
Qed.

Lemma plugin_loop_spec (ps : list PluginDescriptor) (args0 : namespace) :
  Forall (fun p => Forall pair_entry (related_args p)) ps ->
  NoDup (catalog_names ps) ->
  NoDup (map classname ps) ->
  forall (args : namespace) (active ud : pydict),
    (forall k, k ∈ catalog_names ps -> is_Some (args !! k) /\ args !! k = args0 !! k) ->
    (forall c, c ∈ map classname ps -> c ∉ dict_keys active) ->
    (forall k, k ∈ catalog_names ps -> k ∉ dict_keys ud) ->
    for_each consolidate_plugin ps (active, ud) args =
      (inr (active ++ active_of args0 ps, ud ++ using_of args0 ps),
       delete_all (flat_map (consumed args0) ps) args).
Proof.
  intros Hwf. induction Hwf as [|p ps Hp _ IH];
    intros Hnd Hcn args active ud Hargs Hact Hud.
  - simpl. by rewrite !app_nil_r.
  - unfold catalog_names in *. cbn [flat_map map] in *.
    apply NoDup_app in Hnd as (Hndp & Hdisj & Hnd).
    apply NoDup_cons in Hcn as [Hc Hcn].
    cbn [for_each]. unfold mbind at 1, Py_mbind, Py_bind.
    rewrite (plugin_step p args0 args active ud Hp Hndp).
    2:{ intros k Hk. apply Hargs, elem_of_app. by left. }
    2:{ apply Hact. left. }
    2:{ intros k Hk. apply Hud, elem_of_app. left. by right. }
    assert (Hsub : forall k, k ∈ consumed args0 p -> k ∈ plugin_names p).
    { intros k. unfold consumed. destruct (is_disabled args0 p); [|done].
      intros ->%list_elem_of_singleton. left. }
    assert (Hargs' : forall k, k ∈ flat_map plugin_names ps ->
              is_Some (delete_all (consumed args0 p) args !! k)
              /\ delete_all (consumed args0 p) args !! k = args0 !! k).
    { intros k Hk. rewrite lookup_delete_all.
      rewrite decide_False by (intros Hin%Hsub; by apply (Hdisj k)).
      apply Hargs, elem_of_app. by right. }
    rewrite delete_all_app.
    unfold active_of, using_of, enabled. cbn [filter list_filter].
    destruct (is_disabled args0 p) eqn:Hdis.
    + rewrite decide_False by done.
      apply IH; try done.
      * intros c Hc'. apply Hact. by right.
      * intros k Hk. apply Hud, elem_of_app. by right.
    + rewrite decide_True by done. cbn [map flat_map].
      rewrite IH; try done.
      * by rewrite <- !app_assoc.
      * intros c Hc'. rewrite dict_keys_app, not_elem_of_app. split.
        -- apply Hact. by right.
        -- cbn. rewrite not_elem_of_cons. split; [by intros -> | apply not_elem_of_nil].
      * intros k Hk. rewrite dict_keys_app, not_elem_of_app. split.
        -- apply Hud, elem_of_app. by right.
        -- intros Hin%dict_keys_defaults_of. apply (Hdisj k); [by right | done].
Qed.

(** The closed form of a complete run over a well-formed catalogue. *)
Theorem consolidate_args_over_spec (ps : list PluginDescriptor) (args : namespace) :
  catalog_wf ps ->
  declared ps args ->
  is_Some (args !! "hex_limit") ->
  consolidate_args_over ps args =
    (inr tt,
     <["is_using_default_value" := VDict (using_of args ps)]>
       (<["plugins" := VDict (active_of args ps)]>
          (delete_all (flat_map (consumed args) ps) args))).
Proof.
  intros [Hwf Hnd Hcn _ _] Hdecl Hcanary.
  unfold consolidate_args_over. py_unfold.
  rewrite bool_decide_eq_true_2 by done. cbn [negb].
  rewrite (plugin_loop_spec ps args Hwf Hnd Hcn); [done | | |].
  - intros k Hk. split; [|done].
    unfold declared in Hdecl. rewrite Forall_forall in Hdecl. by apply Hdecl.
  - intros c _. apply not_elem_of_nil.
  - intros k _. apply not_elem_of_nil.
Qed.

(** ** The catalogue of the module *)

Lemma all_plugins_wf : catalog_wf all_plugins.
Proof.
  split.
  - repeat constructor; by eexists _, _.
  - by apply (bool_decide_unpack _).
  - by apply (bool_decide_unpack _).
  - by apply (bool_decide_unpack _).
  - by apply (bool_decide_unpack _).
Qed.

Lemma declared_hex_limit args : plugin_group_declared args -> is_Some (args !! "hex_limit").
Proof.
  unfold plugin_group_declared, declared. rewrite Forall_forall.
  intros H. apply H. by apply (bool_decide_unpack _).
Qed.

(** ** Reading the closed forms *)

Lemma NoDup_fmap_eq {A B} (f : A -> B) (l : list A) x y :
  NoDup (map f l) -> x ∈ l -> y ∈ l -> f x = f y -> x = y.
Proof.
  induction l as [|a l IH]; cbn [map]; intros Hnd Hx Hy Hf.
  - by apply elem_of_nil in Hx.
  - apply NoDup_cons in Hnd as [Ha Hnd].
    apply elem_of_cons in Hx as [->|Hx]; apply elem_of_cons in Hy as [->|Hy];
      try done; try by apply IH.
    + exfalso. apply Ha. rewrite Hf. apply list_elem_of_fmap. by exists y.
    + exfalso. apply Ha. rewrite <- Hf. apply list_elem_of_fmap. by exists x.
Qed.

Lemma NoDup_flat_map_eq {A B} (f : A -> list B) (l : list A) x y k :
  NoDup (flat_map f l) -> x ∈ l -> y ∈ l -> k ∈ f x -> k ∈ f y -> x = y.
Proof.
  induction l as [|a l IH]; cbn [flat_map]; intros Hnd Hx Hy Hkx Hky.
  - by apply elem_of_nil in Hx.
  - apply NoDup_app in Hnd as (_ & Hdisj & Hnd).
    assert (Hin : forall z, z ∈ l -> k ∈ f z -> k ∈ flat_map f l).
    { intros z Hz Hkz. apply list_elem_of_In, in_flat_map.
      exists z. by rewrite <- !list_elem_of_In. }
    apply elem_of_cons in Hx as [->|Hx]; apply elem_of_cons in Hy as [->|Hy];
      try done; try by apply IH.
    + exfalso. apply (Hdisj k); [done | by apply (Hin y)].
    + exfalso. apply (Hdisj k); [done | by apply (Hin x)].
Qed.

Lemma elem_of_flat_map {A B} (f : A -> list B) (l : list A) k :
  k ∈ flat_map f l <-> exists x, x ∈ l /\ k ∈ f x.
Proof.
  rewrite list_elem_of_In, in_flat_map.
  split; intros (x & Hx & Hk); exists x; by rewrite ?list_elem_of_In in *.
Qed.

Lemma NoDup_flat_map_inner {A B} (f : A -> list B) (l : list A) x :
  NoDup (flat_map f l) -> x ∈ l -> NoDup (f x).
Proof.
  induction l as [|a l IH]; cbn [flat_map]; intros Hnd Hx.
  - by apply elem_of_nil in Hx.
  - apply NoDup_app in Hnd as (Ha & _ & Hnd).
    apply elem_of_cons in Hx as [->|Hx]; [done | by apply IH].
Qed.

Section closed_forms.
Context (ps : list PluginDescriptor) (args : namespace).
Hypothesis Hwf : catalog_wf ps.

Lemma related_names_NoDup p : p ∈ ps -> NoDup (related_names p).
Proof.
  intros Hp. pose proof (NoDup_flat_map_inner plugin_names ps p (wf_names _ Hwf) Hp) as H.
  unfold plugin_names in H. by apply NoDup_cons in H as [_ H].
Qed.

Lemma enabled_elem_of p : p ∈ enabled args ps <-> is_disabled args p = false /\ p ∈ ps.
Proof. unfold enabled. by rewrite list_elem_of_filter. Qed.

Lemma active_of_keys_NoDup : NoDup (dict_keys (active_of args ps)).
Proof.
  unfold dict_keys, active_of. rewrite map_map. cbn [fst].
  apply (sublist_NoDup _ (map classname ps)); [apply (wf_classnames _ Hwf)|].
  apply fmap_sublist, sublist_filter.
Qed.

Lemma active_of_enabled p :
  p ∈ ps -> is_disabled args p = false ->
  dict_get (classname p) (active_of args ps)
    = Some (VDict (params_of args (related_args p))).
Proof.
  intros Hp Hen. apply dict_get_elem_of; [apply active_of_keys_NoDup|].
  unfold active_of. apply list_elem_of_fmap. exists p. split; [done|].
  by apply enabled_elem_of.
Qed.

Lemma active_of_disabled p :
  p ∈ ps -> is_disabled args p = true ->
  dict_get (classname p) (active_of args ps) = None.
Proof.
  intros Hp Hdis. apply dict_get_None.
  unfold dict_keys, active_of. rewrite map_map. cbn [fst].
  intros (q & Hq & [Hen Hqin]%enabled_elem_of)%list_elem_of_fmap.
  assert (p = q) as <-
    by (by apply (NoDup_fmap_eq classname ps); [apply (wf_classnames _ Hwf)| | |]).
  congruence.
Qed.

Lemma params_of_lookup p e :
  p ∈ ps -> e ∈ related_args p ->
  dict_get (entry_arg e) (params_of args (related_args p))
    = Some (consolidated_value args e).
Proof.
  intros Hp He. apply dict_get_elem_of.
  - rewrite dict_keys_params_of. by apply related_names_NoDup.
  - unfold params_of. apply list_elem_of_fmap. by exists e.
Qed.

Lemma using_of_keys k :
  k ∈ dict_keys (using_of args ps) <->
  exists p e, p ∈ ps /\ is_disabled args p = false /\ e ∈ related_args p
              /\ defaulted args e = true /\ k = entry_arg e.
Proof.
  unfold dict_keys, using_of. split.
  - intros ([k' v] & -> & (p & [Hen Hp]%enabled_elem_of & Hkv)%elem_of_flat_map)%list_elem_of_fmap.
    unfold defaults_of in Hkv.
    apply list_elem_of_fmap in Hkv as (e & [= -> ->] & [Hdef He]%list_elem_of_filter).
    by exists p, e.
  - intros (p & e & Hp & Hen & He & Hdef & ->).
    apply list_elem_of_fmap.
    exists (entry_arg e, VBool true). split; [done|].
    apply elem_of_flat_map. exists p. split; [by apply enabled_elem_of|].
    unfold defaults_of. apply list_elem_of_fmap. exists e. split; [done|].
    by apply list_elem_of_filter.
Qed.

Lemma using_of_values k v : dict_get k (using_of args ps) = Some v -> v = VBool true.
Proof.
  unfold using_of. induction (enabled args ps) as [|p qs IH]; cbn [flat_map]; [done|].
  rewrite dict_get_app. unfold defaults_of at 1.
  induction (filter _ (related_args p)) as [|e es IHe]; cbn [map dict_get].
  - exact IH.
  - destruct (String.eqb k (entry_arg e)); [congruence | exact IHe].
Qed.

Lemma using_of_defaulted p e :
  p ∈ ps -> is_disabled args p = false -> e ∈ related_args p ->
  defaulted args e = true ->
  dict_get (entry_arg e) (using_of args ps) = Some (VBool true).
Proof.
  intros Hp Hen He Hdef.
  destruct (dict_get (entry_arg e) (using_of args ps)) as [v|] eqn:Hget.
  - by rewrite (using_of_values _ _ Hget).
  - exfalso. apply dict_get_None in Hget. apply Hget, using_of_keys.
    by exists p, e.
Qed.

(** The entry that owns an argument name, and the descriptor that owns
    the entry, are unique. *)
Lemma entry_owner p q e e' :
  p ∈ ps -> q ∈ ps -> e ∈ related_args p -> e' ∈ related_args q ->
  entry_arg e = entry_arg e' -> p = q /\ e = e'.
Proof.
  intros Hp Hq He He' Heq.
  assert (p = q) as <-.
  { apply (NoDup_flat_map_eq plugin_names ps p q (entry_arg e));
      [apply (wf_names _ Hwf) | done | done | |].
    - right. apply list_elem_of_fmap. by exists e.
    - right. rewrite Heq. apply list_elem_of_fmap. by exists e'. }
  split; [done|].
  by apply (NoDup_fmap_eq entry_arg (related_args p)); [apply related_names_NoDup| | |].
Qed.

Lemma using_of_not_defaulted p e :
  p ∈ ps -> e ∈ related_args p ->
  is_disabled args p = true \/ defaulted args e = false ->
  dict_get (entry_arg e) (using_of args ps) = None.
Proof.
  intros Hp He Hcase. apply dict_get_None. rewrite using_of_keys.
  intros (q & e' & Hq & Hen & He' & Hdef & Heq).
  destruct (entry_owner p q e e') as [<- <-]; try done.
  destruct Hcase; congruence.
Qed.

Lemma consumed_sub p k : k ∈ consumed args p -> k ∈ plugin_names p.
Proof.
  unfold consumed. destruct (is_disabled args p); [|done].
  intros ->%list_elem_of_singleton. left.
Qed.

Lemma consumed_all_sub k :
  k ∈ flat_map (consumed args) ps -> k ∈ catalog_names ps.
Proof.
  unfold catalog_names. rewrite !elem_of_flat_map. intros (p & Hp & Hk).
  exists p. split; [done | by apply consumed_sub].
Qed.

Lemma consumed_all_enabled p k :
  p ∈ ps -> is_disabled args p = false -> k ∈ plugin_names p ->
  k ∈ flat_map (consumed args) ps.
Proof.
  intros Hp Hen Hk. apply elem_of_flat_map. exists p. split; [done|].
  unfold consumed. by rewrite Hen.
Qed.

Lemma consumed_all_disabled p k :
  p ∈ ps -> is_disabled args p = true ->
  k ∈ plugin_names p ->
  k ∈ flat_map (consumed args) ps <-> k = disable_arg p.
Proof.
  intros Hp Hdis Hk. rewrite elem_of_flat_map. split.
  - intros (q & Hq & Hkq).
    assert (q = p) as ->.
    { apply (NoDup_flat_map_eq plugin_names ps q p k);
        [apply (wf_names _ Hwf) | done | done | by apply consumed_sub | done]. }
    unfold consumed in Hkq. rewrite Hdis in Hkq.
    by apply list_elem_of_singleton in Hkq.
  - intros ->. exists p. split; [done|]. unfold consumed. rewrite Hdis. left.
Qed.

End closed_forms.

(** ** Complete runs over the catalogue of the module *)

Lemma consolidate_args_spec (args : namespace) :
  plugin_group_declared args ->
  consolidated args
    (<["is_using_default_value" := VDict (using_of args all_plugins)]>
       (<["plugins" := VDict (active_of args all_plugins)]>
          (delete_all (flat_map (consumed args) all_plugins) args)))
    (active_of args all_plugins) (using_of args all_plugins).
Proof.
  intros Hdecl. unfold consolidated, consolidate_args.
  rewrite (consolidate_args_over_spec all_plugins args all_plugins_wf Hdecl
             (declared_hex_limit args Hdecl)).
  split; [done|]. split.
  - rewrite lookup_insert_ne by done. apply lookup_insert_eq.
  - apply lookup_insert_eq.
Qed.

Lemma consolidated_lookup (args : namespace) k :
  k <> "plugins" -> k <> "is_using_default_value" ->
  (<["is_using_default_value" := VDict (using_of args all_plugins)]>
     (<["plugins" := VDict (active_of args all_plugins)]>
        (delete_all (flat_map (consumed args) all_plugins) args))) !! k
  = if decide (k ∈ flat_map (consumed args) all_plugins) then None else args !! k.
Proof.
  intros H1 H2. rewrite !lookup_insert_ne by done. apply lookup_delete_all.
Qed.

Lemma catalog_name_not_output k :
  k ∈ catalog_names all_plugins -> k <> "plugins" /\ k <> "is_using_default_value".
Proof.
  intros Hk. split; intros ->.
  - by apply (wf_plugins_free _ all_plugins_wf).
  - by apply (wf_using_free _ all_plugins_wf).
Qed.

Lemma entry_in_catalog p e :
  p ∈ all_plugins -> e ∈ related_args p -> entry_arg e ∈ catalog_names all_plugins.
Proof.
  intros Hp He. apply elem_of_flat_map. exists p. split; [done|].
  right. apply list_elem_of_fmap. by exists e.
Qed.

Lemma declared_lookup args k :
  plugin_group_declared args -> k ∈ catalog_names all_plugins -> is_Some (args !! k).
Proof.
  unfold plugin_group_declared, declared. rewrite Forall_forall. auto.
Qed.

(** C1.  For a related parameter of a descriptor that is not disabled, a
    raw value that is absent (argparse leaves [None] for a limit that was
    not given) and a truthy default make the consolidated value the
    default and record the parameter as [True] in
    [is_using_default_value].  In particular, with [hex_limit] absent and
    the hex disable flag false, [plugins['HexHighEntropyString']['hex_limit']]
    compares equal to [3.0] and [is_using_default_value['hex_limit']] is
    [True].  The namespace is one of a grammar that declared the plugin
    option group, on which consolidation runs to completion. *)
Theorem consolidate_substitutes_default (args : namespace) :
  plugin_group_declared args ->
  (forall p flag dflt,
     p ∈ all_plugins ->
     VTuple [VStr flag; dflt] ∈ related_args p ->
     is_disabled args p = false ->
     args !! argument_name flag = Some VNone ->
     truthy dflt = true ->
     exists args' active ud params,
       consolidated args args' active ud
       /\ dict_get (classname p) active = Some (VDict params)
       /\ dict_get (argument_name flag) params = Some dflt
       /\ dict_get (argument_name flag) ud = Some (VBool true))
  /\ (truthy (default (VBool false) (args !! "no_hex_string_scan")) = false ->
      args !! "hex_limit" = Some VNone ->
      exists args' active ud params v,
        consolidated args args' active ud
        /\ dict_get "HexHighEntropyString" active = Some (VDict params)
        /\ dict_get "hex_limit" params = Some v
        /\ py_num_eq v (VFloat 3%float) = true
        /\ dict_get "hex_limit" ud = Some (VBool true)).
Proof.
  intros Hdecl.
  assert (Hgen : forall p flag dflt,
     p ∈ all_plugins ->
     VTuple [VStr flag; dflt] ∈ related_args p ->
     is_disabled args p = false ->
     args !! argument_name flag = Some VNone ->
     truthy dflt = true ->
     exists args' active ud params,
       consolidated args args' active ud
       /\ dict_get (classname p) active = Some (VDict params)
       /\ dict_get (argument_name flag) params = Some dflt
       /\ dict_get (argument_name flag) ud = Some (VBool true)).
  { intros p flag dflt Hp He Hen Hraw Hdflt.
    assert (Hdef : defaulted args (VTuple [VStr flag; dflt]) = true).
    { unfold defaulted, raw. cbn [entry_default entry_arg]. by rewrite Hraw, Hdflt. }
    eexists _, _, _, _. split; [by apply consolidate_args_spec|].
    split; [by apply (active_of_enabled _ _ all_plugins_wf)|].
    change (argument_name flag) with (entry_arg (VTuple [VStr flag; dflt])).
    split.
    - rewrite (params_of_lookup _ args all_plugins_wf p (VTuple [VStr flag; dflt]) Hp He).
      unfold consolidated_value. by rewrite Hdef.
    - by apply (using_of_defaulted _ args p (VTuple [VStr flag; dflt])). }
  split; [exact Hgen|].
  intros Hen Hraw.
  destruct (Hgen (PluginDescriptor_new "HexHighEntropyString" "--no-hex-string-scan"
                    "Disables scanning for hex high entropy strings"
                    (Some [VTuple [VStr "--hex-limit"; VInt 3]]))
              "--hex-limit" (VInt 3))
    as (args' & active & ud & params & Hrun & Hact & Hpar & Hud);
    [left | left | exact Hen | exact Hraw | done |].
  by exists args', active, ud, params, (VInt 3).
Qed.

(** C2.  A raw value that is present, that is not [None], is kept as the
    consolidated value whatever the default of the entry is, and the
    parameter gets no entry in [is_using_default_value], which only ever
    holds [True].  This covers the falsy raw values of the claim, such as
    an explicit [0.0]. *)
Theorem consolidate_keeps_explicit_value (args : namespace)
    (p : PluginDescriptor) (flag : string) (dflt v : pyval) :
  plugin_group_declared args ->
  p ∈ all_plugins ->
  VTuple [VStr flag; dflt] ∈ related_args p ->
  is_disabled args p = false ->
  args !! argument_name flag = Some v ->
  v <> VNone ->
  exists args' active ud params,
    consolidated args args' active ud
    /\ dict_get (classname p) active = Some (VDict params)
    /\ dict_get (argument_name flag) params = Some v
    /\ dict_get (argument_name flag) ud = None.
Proof.
  intros Hdecl Hp He Hen Hraw Hv.
  assert (Hdef : defaulted args (VTuple [VStr flag; dflt]) = false).
  { unfold defaulted, raw. cbn [entry_default entry_arg]. rewrite Hraw. cbn [default].
    destruct v; try done. all: apply andb_false_r. }
  eexists _, _, _, _. split; [by apply consolidate_args_spec|].
  split; [by apply (active_of_enabled _ _ all_plugins_wf)|].
  change (argument_name flag) with (entry_arg (VTuple [VStr flag; dflt])).
  split.
  - rewrite (params_of_lookup _ args all_plugins_wf p (VTuple [VStr flag; dflt]) Hp He).
    unfold consolidated_value, raw. rewrite Hdef. cbn [entry_arg]. by rewrite Hraw.
  - apply (using_of_not_defaulted _ args all_plugins_wf p); auto.
Qed.

(** C3.  A descriptor of [all_plugins] whose disable flag holds a truthy
    value in the raw namespace has no entry in [plugins] after
    consolidation. *)
Theorem consolidate_drops_disabled (args : namespace) (p : PluginDescriptor) :
  plugin_group_declared args ->
  p ∈ all_plugins ->
  is_disabled args p = true ->
  exists args' active ud,
    consolidated args args' active ud
    /\ dict_get (classname p) active = None
    /\ classname p ∉ dict_keys active.
Proof.
  intros Hdecl Hp Hdis.
  eexists _, _, _. split; [by apply consolidate_args_spec|].
  assert (H : dict_get (classname p) (active_of args all_plugins) = None)
    by (by apply (active_of_disabled _ _ all_plugins_wf)).
  split; [exact H | by apply dict_get_None].
Qed.

(** C4.  A descriptor of [all_plugins] whose disable flag is not set has
    its class name as a key of [plugins]; the keys of the dict stored
    there are the declared related parameters, so each of them is present,
    and a descriptor without related parameters is stored with the empty
    dict. *)
Theorem consolidate_keeps_enabled (args : namespace) (p : PluginDescriptor) :
  plugin_group_declared args ->
  p ∈ all_plugins ->
  is_disabled args p = false ->
  exists args' active ud params,
    consolidated args args' active ud
    /\ dict_get (classname p) active = Some (VDict params)
    /\ dict_keys params = related_names p
    /\ (forall name, name ∈ related_names p -> is_Some (dict_get name params))
    /\ (related_args p = [] -> params = []).
Proof.
  intros Hdecl Hp Hen.
  eexists _, _, _, _. split; [by apply consolidate_args_spec|].
  split; [by apply (active_of_enabled _ _ all_plugins_wf)|].
  split; [apply dict_keys_params_of|]. split.
  - intros name (e & -> & He)%list_elem_of_fmap.
    rewrite (params_of_lookup _ args all_plugins_wf p e Hp He). by eexists.
  - by intros ->.
Qed.

(** C5.  On a namespace without the attribute [hex_limit] consolidation
    returns without an exception and leaves the namespace as it was: no
    attribute is removed and neither [plugins] nor
    [is_using_default_value] is attached. *)
Theorem consolidate_without_canary (args : namespace) :
  args !! "hex_limit" = None ->
  consolidate_args args = (inr tt, args).
Proof.
  intros Hnone. unfold consolidate_args, consolidate_args_over. py_unfold.
  rewrite bool_decide_eq_false_2; [done|].
  rewrite Hnone. by intros [? ?].
Qed.

(** C9.  Consolidation changes the raw attributes by removal only.  After
    it, the disable flag and every related parameter of a descriptor that
    is not disabled are gone; an attribute that no descriptor of the
    catalogue names is unchanged; and every attribute is either gone or
    unchanged.  The two attributes consolidation attaches, [plugins] and
    [is_using_default_value], are its output and stand apart. *)
Theorem consolidate_consumes_fields (args : namespace) :
  plugin_group_declared args ->
  exists args' active ud,
    consolidated args args' active ud
    /\ (forall p name,
          p ∈ all_plugins -> is_disabled args p = false ->
          name ∈ plugin_names p -> args' !! name = None)
    /\ (forall name,
          name ∉ catalog_names all_plugins ->
          name <> "plugins" -> name <> "is_using_default_value" ->
          args' !! name = args !! name)
    /\ (forall name,
          name <> "plugins" -> name <> "is_using_default_value" ->
          args' !! name = None \/ args' !! name = args !! name).
Proof.
  intros Hdecl.
  eexists _, _, _. split; [by apply consolidate_args_spec|]. split; [|split].
  - intros p name Hp Hen Hname.
    assert (Hcat : name ∈ catalog_names all_plugins)
      by (apply elem_of_flat_map; by exists p).
    destruct (catalog_name_not_output name Hcat) as [H1 H2].
    rewrite consolidated_lookup by done.
    rewrite decide_True; [done|]. by apply (consumed_all_enabled _ _ p).
  - intros name Hcat H1 H2. rewrite consolidated_lookup by done.
    rewrite decide_False; [done|]. intros Hin. by apply Hcat, (consumed_all_sub _ args).
  - intros name H1 H2. rewrite consolidated_lookup by done.
    case_decide; auto.
Qed.

(** C10.  For a descriptor whose disable flag is set, consolidation removes
    the disable flag and nothing else of the descriptor: its related
    parameters stay in the namespace with their raw values, and none of
    them gets an entry in [is_using_default_value]. *)
Theorem consolidate_disabled_keeps_related (args : namespace) (p : PluginDescriptor) :
  plugin_group_declared args ->
  p ∈ all_plugins ->
  is_disabled args p = true ->
  exists args' active ud,
    consolidated args args' active ud
    /\ args' !! disable_arg p = None
    /\ (forall name,
          name ∈ related_names p ->
          is_Some (args !! name)
          /\ args' !! name = args !! name
          /\ dict_get name ud = None).
Proof.
  intros Hdecl Hp Hdis.
  eexists _, _, _. split; [by apply consolidate_args_spec|]. split.
  - assert (Hcat : disable_arg p ∈ catalog_names all_plugins)
      by (apply elem_of_flat_map; exists p; split; [done | left]).
    destruct (catalog_name_not_output _ Hcat) as [H1 H2].
    rewrite consolidated_lookup by done.
    rewrite decide_True; [done|].
    apply (consumed_all_disabled _ _ all_plugins_wf p); [done | done | left | done].
  - intros name Hname.
    assert (Hin : name ∈ plugin_names p) by (by right).
    assert (Hcat : name ∈ catalog_names all_plugins)
      by (apply elem_of_flat_map; by exists p).
    destruct (catalog_name_not_output _ Hcat) as [H1 H2].
    split; [by apply declared_lookup|]. split.
    + rewrite consolidated_lookup by done.
      rewrite decide_False; [done|].
      rewrite (consumed_all_disabled _ _ all_plugins_wf p) by done.
      intros ->.
      pose proof (NoDup_flat_map_inner plugin_names _ p
                    (wf_names _ all_plugins_wf) Hp) as Hnd.
      unfold plugin_names in Hnd. by apply NoDup_cons in Hnd as [Hnd _].
    + apply list_elem_of_fmap in Hname as (e & -> & He).
      apply (using_of_not_defaulted _ args all_plugins_wf p); auto.
Qed.

(** ** Runs that raise *)

Lemma dict_get_set_eq k v (d : pydict) : dict_get k (dict_set k v d) = Some v.
Proof.
  induction d as [|[k' v'] d IH]; simpl.
  - by rewrite String.eqb_refl.
  - destruct (String.eqb k k') eqn:Hk; simpl; rewrite ?String.eqb_refl, ?Hk; done.
Qed.

Lemma pair_entry_outcome e locals args :
  pair_entry e -> returns_or_misses (consolidate_related_arg e locals) args.
Proof.
  intros (flag & dflt & ->). destruct locals as [ra ud].
  unfold returns_or_misses, consolidate_related_arg, unpack_related_arg.
  cbn [unpack_pair]. py_unfold. cbn [_convert_flag_text_to_argument_name].
  destruct (args !! argument_name flag) as [v|] eqn:Hv; [|right; by eexists].
  left. rewrite !Hv.
  destruct (truthy dflt); [rewrite dict_get_set_eq; destruct (is_none v)|];
    eexists _, _; (split; [done|]);
    intros k Hk; by apply lookup_delete_None; right.
Qed.

Lemma pair_entries_outcome es locals args :
  Forall pair_entry es ->
  returns_or_misses (for_each consolidate_related_arg es locals) args.
Proof.
  intros Hwf. revert locals args.
  induction Hwf as [|e es He _ IH]; intros locals args.
  - left. by eexists _, _.
  - unfold returns_or_misses in *. cbn [for_each]. unfold mbind, Py_mbind, Py_bind.
    destruct (pair_entry_outcome e locals args He)
      as [(locals' & args1 & -> & Hmiss)|[args1 ->]]; [|right; by eexists].
    destruct (IH locals' args1) as [(locals'' & args2 & -> & Hmiss')|[args2 ->]].
    + left. eexists _, _. split; [done|]. auto.
    + right. by eexists.
Qed.

Lemma plugin_misses_flag q locals (args : namespace) :
  args !! disable_arg q = None ->
  consolidate_plugin q locals args = (inl AttributeError, args).
Proof.
  intros Hnone. destruct locals as [active ud].
  unfold consolidate_plugin. py_unfold. cbn [_convert_flag_text_to_argument_name].
  fold (disable_arg q). by rewrite Hnone.
Qed.

Lemma plugin_outcome q locals (args : namespace) :
  Forall pair_entry (related_args q) ->
  returns_or_misses (consolidate_plugin q locals) args.
Proof.
  intros Hq. destruct locals as [active ud].
  unfold returns_or_misses, consolidate_plugin. py_unfold.
  cbn [_convert_flag_text_to_argument_name]. fold (disable_arg q).
  destruct (args !! disable_arg q) as [d|] eqn:Hd; [|right; by eexists].
  cbn [default id].
  assert (Hdel : forall k, args !! k = None -> delete (disable_arg q) args !! k = None)
    by (intros k Hk; apply lookup_delete_None; by right).
  destruct (truthy d); [left; by eexists _, _|].
  destruct (pair_entries_outcome (related_args q) ([], ud)
              (delete (disable_arg q) args) Hq)
    as [([ra ud'] & args1 & Hrun & Hmiss)|[args1 Hrun]];
    unfold Py in *; rewrite Hrun.
  - left. eexists _, _. split; [done|]. auto.
  - right. by eexists.
Qed.

Lemma plugin_loop_misses ps p :
  Forall (fun q => Forall pair_entry (related_args q)) ps ->
  p ∈ ps ->
  forall locals (args : namespace),
    args !! disable_arg p = None ->
    exists args', for_each consolidate_plugin ps locals args = (inl AttributeError, args').
Proof.
  intros Hwf. induction Hwf as [|q ps Hq _ IH]; intros Hp locals args Hnone.
  - by apply elem_of_nil in Hp.
  - cbn [for_each]. unfold mbind, Py_mbind, Py_bind.
    destruct (plugin_outcome q locals args Hq)
      as [(locals' & args1 & Hrun & Hmiss)|[args1 Hrun]];
      rewrite Hrun; [|by eexists].
    apply IH; [|by apply Hmiss].
    apply elem_of_cons in Hp as [->|Hp]; [|done].
    rewrite (plugin_misses_flag _ _ _ Hnone) in Hrun. congruence.
Qed.

(** C8, which the code departs from.  With the canary [hex_limit] present
    and the disable flag of a descriptor missing, [getattr] falls back to
    [False], but the [delattr] that follows raises: consolidation ends in
    [AttributeError] instead of completing. *)
Theorem consolidate_misses_disable_flag (args : namespace) (p : PluginDescriptor) :
  is_Some (args !! "hex_limit") ->
  p ∈ all_plugins ->
  args !! disable_arg p = None ->
  exists args', consolidate_args args = (inl AttributeError, args').
Proof.
  intros Hcanary Hp Hnone. unfold consolidate_args, consolidate_args_over.
  unfold hasattr. unfold mbind at 1, Py_mbind, Py_bind.
  rewrite bool_decide_eq_true_2 by done. cbn [negb].
  unfold mbind at 1, Py_mbind, Py_bind.
  destruct (plugin_loop_misses all_plugins p (wf_entries _ all_plugins_wf) Hp
              ([], []) args Hnone) as [args' Hrun].
  unfold Py in *. rewrite Hrun. by eexists.
Qed.

(** ** Entries of other shapes *)





(** A bare flag is read as the flag without a default. *)
Lemma bare_flag_as_pair flag locals (args : namespace) :
  String.length flag <> 2 ->
  consolidate_related_arg (VStr flag) locals args =
    consolidate_related_arg (VTuple [VStr flag; VNone]) locals args.
Proof.
  intros Hlen. destruct locals as [ra ud].
  unfold consolidate_related_arg, unpack_related_arg. cbn [unpack_pair].
  destruct flag as [|c1 [|c2 [|c3 flag]]]; try done.
Qed.

(** ** The limits *)

Lemma SFcompare_antisym x y :
  SFcompare y x = option_map CompOpp (SFcompare x y).
Proof.
  destruct x as [sx|sx| |sx mx ex], y as [sy|sy| |sy my ey]; try done;
    try (by destruct sx); try (by destruct sy); try (by destruct sx, sy).
  cbn [SFcompare option_map]. f_equal.
  destruct sx, sy; try done.
  - rewrite (Z.compare_antisym ey ex). destruct (ey ?= ex)%Z; cbn [CompOpp]; try done.
    by rewrite (Pos.compare_cont_antisym mx my Eq).
  - rewrite (Z.compare_antisym ey ex). destruct (ey ?= ex)%Z; cbn [CompOpp]; try done.
    by rewrite (Pos.compare_cont_antisym mx my Eq).
Qed.

Lemma SFeqb_refl a : SFeqb a a = negb (SFis_nan a).
Proof.
  unfold SFeqb. destruct a as [s|s| |s m e]; try done; try by destruct s.
  cbn [SFcompare SFis_nan negb]. rewrite Z.compare_refl, Pos.compare_cont_refl.
  by destruct s.
Qed.

Lemma SFcompare_None a b : SFcompare a b = None -> SFis_nan a || SFis_nan b = true.
Proof. destruct a as [s|s| |s m e], b as [s'|s'| |s' m' e']; done. Qed.

Lemma SFcompare_Some a b c : SFcompare a b = Some c -> SFis_nan a || SFis_nan b = false.
Proof. destruct a as [s|s| |s m e], b as [s'|s'| |s' m' e']; done. Qed.

Lemma ltb_leb_flip x y :
  (x <? y)%float = negb (y <=? x)%float && negb (is_nan x) && negb (is_nan y).
Proof.
  unfold is_nan. rewrite FloatAxioms.ltb_spec, FloatAxioms.leb_spec, !FloatAxioms.eqb_spec.
  rewrite !SFeqb_refl, !negb_involutive.
  unfold SFltb, SFleb. rewrite (SFcompare_antisym (Prim2SF x) (Prim2SF y)).
  destruct (SFcompare (Prim2SF x) (Prim2SF y)) as [c|] eqn:Hc.
  - apply SFcompare_Some, orb_false_elim in Hc as [-> ->]. by destruct c.
  - apply SFcompare_None in Hc. cbn [option_map negb andb].
    destruct (SFis_nan (Prim2SF x)), (SFis_nan (Prim2SF y)); done.
Qed.

(** What [_argparse_minmax_type] accepts: a string is rejected with
    [ValueError] when [float] rejects it, returned as its float when the
    float lies within 0.0 and 8.0 or is a NaN, and rejected with
    [ArgumentTypeError] otherwise. *)
Theorem argparse_minmax_type_accepts (py_float : string -> option float) (s : string) :
  _argparse_minmax_type py_float s =
    match py_float s with
    | None => inl ValueError
    | Some value =>
        if in_limits value || is_nan value then inr value
        else inl (ArgumentTypeError (s ++ " must be between 0.0 and 8.0")%string)
    end.
Proof.
  unfold _argparse_minmax_type, in_limits.
  destruct (py_float s) as [value|]; [|done].
  rewrite !ltb_leb_flip. change (is_nan 0) with false. change (is_nan 8) with false.
  cbn [negb]. rewrite !andb_true_r.
  destruct (0 <=? value)%float, (value <=? 8)%float, (is_nan value); done.
Qed.

(** C7, which the code departs from.  A string that [float] reads as NaN
    passes both comparisons of [_argparse_minmax_type] and is returned as
    the limit, although NaN is not within 0.0 and 8.0. *)
Theorem argparse_minmax_type_nan (py_float : string -> option float) (s : string) :
  py_float s = Some nan ->
  _argparse_minmax_type py_float s = inr nan /\ in_limits nan = false.
Proof. intros Hnan. unfold _argparse_minmax_type. by rewrite Hnan. Qed.

Lemma argparse_minmax_type_nan_witness :
  float_of_literal "nan" = Some nan
  /\ _argparse_minmax_type float_of_literal "nan" = inr nan
  /\ in_limits nan = false.
Proof.
  split; [reflexivity|].
  apply (argparse_minmax_type_nan float_of_literal "nan"). reflexivity.
Defined.

(** ** Examples *)

Lemma scenario_args_declared : plugin_group_declared scenario_args.
Proof. by apply (bool_decide_unpack _). Qed.

Lemma explicit_zero_args_declared : plugin_group_declared explicit_zero_args.
Proof. by apply (bool_decide_unpack _). Qed.

Lemma hex_plugin_in_catalog :
  PluginDescriptor_new "HexHighEntropyString" "--no-hex-string-scan"
    "Disables scanning for hex high entropy strings"
    (Some [VTuple [VStr "--hex-limit"; VInt 3]]) ∈ all_plugins.
Proof. left. Qed.

Lemma consolidate_substitutes_default_witness :
  plugin_group_declared scenario_args
  /\ exists args' active ud params v,
       consolidated scenario_args args' active ud
       /\ dict_get "HexHighEntropyString" active = Some (VDict params)
       /\ dict_get "hex_limit" params = Some v
       /\ py_num_eq v (VFloat 3%float) = true
       /\ dict_get "hex_limit" ud = Some (VBool true).
Proof.
  split; [exact scenario_args_declared|].
  apply (proj2 (consolidate_substitutes_default scenario_args scenario_args_declared));
    reflexivity.
Defined.

Lemma consolidate_keeps_explicit_value_witness :
  exists args' active ud params,
    consolidated explicit_zero_args args' active ud
    /\ dict_get "HexHighEntropyString" active = Some (VDict params)
    /\ dict_get "hex_limit" params = Some (VFloat 0%float)
    /\ dict_get "hex_limit" ud = None.
Proof.
  apply (consolidate_keeps_explicit_value explicit_zero_args _ "--hex-limit" (VInt 3)
           (VFloat 0%float) explicit_zero_args_declared hex_plugin_in_catalog);
    [left | reflexivity | reflexivity | discriminate].
Defined.

Lemma consolidate_drops_disabled_witness :
  exists args' active ud,
    consolidated scenario_args args' active ud
    /\ dict_get "Base64HighEntropyString" active = None
    /\ "Base64HighEntropyString" ∉ dict_keys active.
Proof.
  apply (consolidate_drops_disabled scenario_args
           (PluginDescriptor_new "Base64HighEntropyString" "--no-base64-string-scan"
              "Disables scanning for base64 high entropy strings"
              (Some [VTuple [VStr "--base64-limit"; VFloat 4.5%float]]))
           scenario_args_declared); [right; left | reflexivity].
Defined.

Lemma consolidate_keeps_enabled_witness :
  exists args' active ud params,
    consolidated scenario_args args' active ud
    /\ dict_get "PrivateKeyDetector" active = Some (VDict params)
    /\ dict_keys params = []
    /\ (forall name, name ∈ [] -> is_Some (dict_get name params))
    /\ (@nil pyval = [] -> params = []).
Proof.
  apply (consolidate_keeps_enabled scenario_args
           (PluginDescriptor_new "PrivateKeyDetector" "--no-private-key-scan"
              "Disables scanning for private keys." None)
           scenario_args_declared); [right; right; left | reflexivity].
Defined.

Lemma consolidate_without_canary_witness :
  audit_args !! "hex_limit" = None
  /\ consolidate_args audit_args = (inr tt, audit_args).
Proof.
  split; [reflexivity|]. apply consolidate_without_canary. reflexivity.
Defined.

Lemma consolidate_consumes_fields_witness :
  exists args' active ud,
    consolidated scenario_args args' active ud
    /\ (forall p name,
          p ∈ all_plugins -> is_disabled scenario_args p = false ->
          name ∈ plugin_names p -> args' !! name = None)
    /\ (forall name,
          name ∉ catalog_names all_plugins ->
          name <> "plugins" -> name <> "is_using_default_value" ->
          args' !! name = scenario_args !! name)
    /\ (forall name,
          name <> "plugins" -> name <> "is_using_default_value" ->
          args' !! name = None \/ args' !! name = scenario_args !! name).
Proof. exact (consolidate_consumes_fields scenario_args scenario_args_declared). Defined.

Lemma consolidate_disabled_keeps_related_witness :
  exists args' active ud,
    consolidated scenario_args args' active ud
    /\ args' !! "no_base64_string_scan" = None
    /\ (forall name,
          name ∈ ["base64_limit"] ->
          is_Some (scenario_args !! name)
          /\ args' !! name = scenario_args !! name
          /\ dict_get name ud = None).
Proof.
  apply (consolidate_disabled_keeps_related scenario_args
           (PluginDescriptor_new "Base64HighEntropyString" "--no-base64-string-scan"
              "Disables scanning for base64 high entropy strings"
              (Some [VTuple [VStr "--base64-limit"; VFloat 4.5%float]]))
           scenario_args_declared); [right; left | reflexivity].
Defined.

Lemma consolidate_misses_disable_flag_witness :
  is_Some (no_slack_flag_args !! "hex_limit")
  /\ no_slack_flag_args !! "no_slack_scan" = None
  /\ exists args', consolidate_args no_slack_flag_args = (inl AttributeError, args').
Proof.
  split; [by eexists|]. split; [reflexivity|].
  apply (consolidate_misses_disable_flag no_slack_flag_args
           (PluginDescriptor_new "SlackDetector" "--no-slack-scan"
              "Disables scanning for Slack tokens." None));
    [by eexists | do 6 right; left | reflexivity].
Defined.



(** The scenario of the specification, run in full: the hex limit is
    defaulted, the base64 detector is left out and keeps its limit in the
    namespace, the detectors without parameters are stored with empty
    dicts, and the attributes of the other options are untouched. *)
Example scenario_args_consolidated :
  consolidate_args scenario_args =
    (inr tt,
     list_to_map
       [ ("action", VStr "scan"); ("path", VStr "."); ("verbose", VInt 2);
         ("base64_limit", VNone);
         ("plugins",
          VDict
            [ ("HexHighEntropyString", VDict [("hex_limit", VInt 3)]);
              ("PrivateKeyDetector", VDict []);
              ("BasicAuthDetector", VDict []);
              ("KeywordDetector", VDict []);
              ("AWSKeyDetector", VDict []);
              ("SlackDetector", VDict []) ]);
         ("is_using_default_value", VDict [("hex_limit", VBool true)]) ]).
Proof. vm_compute. reflexivity. Qed.

(** An explicit [--hex-limit 0.0] is kept and is not marked as defaulted;
    the base64 limit, not given, takes its default 4.5. *)
Example explicit_zero_args_consolidated :
  consolidate_args explicit_zero_args =
    (inr tt,
     list_to_map
       [ ("filenames", VList [VStr "setup.py"]);
         ("baseline", VList [VStr ".secrets.baseline"]);
         ("plugins",
          VDict
            [ ("HexHighEntropyString", VDict [("hex_limit", VFloat 0%float)]);
              ("Base64HighEntropyString", VDict [("base64_limit", VFloat 4.5%float)]);
              ("PrivateKeyDetector", VDict []);
              ("BasicAuthDetector", VDict []);
              ("KeywordDetector", VDict []);
              ("AWSKeyDetector", VDict []);
              ("SlackDetector", VDict []) ]);
         ("is_using_default_value", VDict [("base64_limit", VBool true)]) ]).
Proof. vm_compute. reflexivity. Qed.

(** The limits of the specification's examples. *)
Example argparse_minmax_type_examples :
  _argparse_minmax_type float_of_literal "0.0" = inr 0%float
  /\ _argparse_minmax_type float_of_literal "8.0" = inr 8%float
  /\ _argparse_minmax_type float_of_literal "8.01"
       = inl (ArgumentTypeError "8.01 must be between 0.0 and 8.0")
  /\ _argparse_minmax_type float_of_literal "-0.1"
       = inl (ArgumentTypeError "-0.1 must be between 0.0 and 8.0")
  /\ _argparse_minmax_type float_of_literal "eight" = inl ValueError.
Proof. repeat split; reflexivity. Qed.

(** A parser that exits with an error keeps consolidation from running. *)
Lemma parse_args_parser_error parser argv e :
  parser argv = inl e -> ParserBuilder.parse_args parser argv = inl e.
Proof. intros H. unfold ParserBuilder.parse_args. by rewrite H. Qed.

(** The closed form of a complete run over the catalogue of the module,
    for every namespace of a grammar that declared the plugin option
    group. *)
Theorem consolidate_args_closed_form (args : namespace) :
  plugin_group_declared args ->
  consolidate_args args =
    (inr tt,
     <["is_using_default_value" := VDict (using_of args all_plugins)]>
       (<["plugins" := VDict (active_of args all_plugins)]>
          (delete_all (flat_map (consumed args) all_plugins) args))).
Proof.
  intros Hdecl.
  apply (consolidate_args_over_spec all_plugins args all_plugins_wf Hdecl
           (declared_hex_limit args Hdecl)).
Qed.

Lemma consolidate_args_closed_form_witness :
  plugin_group_declared scenario_args
  /\ consolidate_args scenario_args =
       (inr tt,
        <["is_using_default_value" := VDict (using_of scenario_args all_plugins)]>
          (<["plugins" := VDict (active_of scenario_args all_plugins)]>
             (delete_all (flat_map (consumed scenario_args) all_plugins) scenario_args))).
Proof.
  split; [exact scenario_args_declared|].
  exact (consolidate_args_closed_form scenario_args scenario_args_declared).
Defined.

(** * More of the module *)

(** ** Computations that only remove attributes *)

Lemma shrinking_ret {A} (a : A) : shrinking (mret a).
Proof. intros args r args' [= <- <-]. done. Qed.

Lemma shrinking_raise {A} e : shrinking (@raise A e).
Proof. intros args r args' [= <- <-]. done. Qed.

Lemma shrinking_lift {A} (r : pyexn + A) : shrinking (lift r).
Proof. destruct r; [apply shrinking_raise | apply shrinking_ret]. Qed.

Lemma shrinking_bind {A B} (m : Py A) (k : A -> Py B) :
  shrinking m -> (forall a, shrinking (k a)) -> shrinking (m ≫= k).
Proof.
  intros Hm Hk args r args'. unfold mbind, Py_mbind, Py_bind.
  destruct (m args) as [[e|a] args1] eqn:Hrun.
  - intros [= <- <-]. by apply (Hm _ _ _ Hrun).
  - intros Hrun'. etrans; [by apply (Hk _ _ _ _ Hrun') | by apply (Hm _ _ _ Hrun)].
Qed.

Lemma shrinking_getattr name : shrinking (getattr name).
Proof.
  intros args r args'. unfold getattr.
  destruct (args !! name); intros [= <- <-]; done.
Qed.

Lemma shrinking_getattr_default name dflt : shrinking (getattr_default name dflt).
Proof. intros args r args' [= <- <-]. done. Qed.

Lemma shrinking_delattr name : shrinking (delattr name).
Proof.
  intros args r args'. unfold delattr.
  destruct (args !! name); intros [= <- <-]; [apply delete_subseteq | done].
Qed.

Lemma shrinking_dict_getitem k d : shrinking (dict_getitem k d).
Proof.
  unfold dict_getitem. destruct (dict_get k d); [apply shrinking_ret | apply shrinking_raise].
Qed.

Lemma shrinking_for_each {A S} (body : A -> S -> Py S) items :
  (forall x s, shrinking (body x s)) -> forall s, shrinking (for_each body items s).
Proof.
  intros Hbody. induction items as [|x items IH]; intros s; cbn [for_each].
  - apply shrinking_ret.
  - apply shrinking_bind; [apply Hbody | apply IH].
Qed.

Create HintDb shrinking.
#[local] Hint Resolve shrinking_ret shrinking_raise shrinking_lift shrinking_getattr
  shrinking_getattr_default shrinking_delattr shrinking_dict_getitem : shrinking.

Lemma shrinking_unpack_related_arg e : shrinking (unpack_related_arg e).
Proof.
  unfold unpack_related_arg.
  destruct (unpack_pair e) as [[]|[]]; auto with shrinking.
Qed.

Lemma shrinking_consolidate_related_arg e locals :
  shrinking (consolidate_related_arg e locals).
Proof.
  destruct locals as [ra ud]. unfold consolidate_related_arg.
  apply shrinking_bind; [apply shrinking_unpack_related_arg|]. intros [flag_name dflt].
  apply shrinking_bind; [auto with shrinking|]. intros arg_name.
  apply shrinking_bind; [auto with shrinking|]. intros v.
  apply shrinking_bind; [auto with shrinking|]. intros _.
  apply shrinking_bind.
  - destruct (truthy dflt); [|auto with shrinking].
    apply shrinking_bind; auto with shrinking.
  - intros []; auto with shrinking.
Qed.

Lemma shrinking_consolidate_plugin p locals : shrinking (consolidate_plugin p locals).
Proof.
  destruct locals as [active ud]. unfold consolidate_plugin.
  apply shrinking_bind; [auto with shrinking|]. intros arg_name.
  apply shrinking_bind; [auto with shrinking|]. intros d.
  apply shrinking_bind; [auto with shrinking|]. intros _.
  destruct (truthy d); [auto with shrinking|].
  apply shrinking_bind.
  - apply shrinking_for_each. apply shrinking_consolidate_related_arg.
  - intros [ra ud']. auto with shrinking.
Qed.

Lemma shrinking_plugin_loop ps locals : shrinking (for_each consolidate_plugin ps locals).
Proof. apply shrinking_for_each. apply shrinking_consolidate_plugin. Qed.

(** ** Every outcome of consolidation *)

Lemma plugin_loop_outcome ps locals (args : namespace) :
  Forall (fun q => Forall pair_entry (related_args q)) ps ->
  returns_or_misses (for_each consolidate_plugin ps locals) args.
Proof.
  intros Hwf. revert locals args.
  induction Hwf as [|q ps Hq _ IH]; intros locals args.
  - left. by eexists _, _.
  - unfold returns_or_misses in *. cbn [for_each]. unfold mbind, Py_mbind, Py_bind.
    destruct (plugin_outcome q locals args Hq)
      as [(locals' & args1 & -> & Hmiss)|[args1 ->]]; [|right; by eexists].
    destruct (IH locals' args1) as [(locals'' & args2 & -> & Hmiss')|[args2 ->]].
    + left. eexists _, _. split; [done|]. auto.
    + right. by eexists.
Qed.

(** Consolidation ends in one of two ways: it returns, or it raises
    [AttributeError]; no other exception leaves it. *)
Theorem consolidate_args_returns_or_attribute_error (args : namespace) :
  exists args',
    consolidate_args args = (inr tt, args')
    \/ consolidate_args args = (inl AttributeError, args').
Proof.
  destruct (consolidate_args args) as [[e|[]] args'] eqn:Hrun;
    exists args'; [right | by left].
  revert Hrun. unfold consolidate_args, consolidate_args_over, hasattr.
  unfold mbind at 1, Py_mbind, Py_bind.
  destruct (bool_decide (is_Some (args !! "hex_limit"))); cbn [negb]; [|done].
  unfold mbind at 1, Py_mbind, Py_bind.
  destruct (plugin_loop_outcome all_plugins ([], []) args (wf_entries _ all_plugins_wf))
    as [([active ud] & args1 & Hrun & _)|[args1 Hrun]];
    unfold Py in *; rewrite Hrun; [done | congruence].
Qed.

(** Whatever the catalogue and however the run ends, consolidation never
    changes the value of a raw attribute and never adds one besides
    [plugins] and [is_using_default_value]; when it raises, it has not
    attached these two either, so the namespace is what is left of the
    caller's after the removals made so far. *)
Theorem consolidate_args_over_only_removes
    (ps : list PluginDescriptor) (args : namespace) :
  (forall k v,
     k <> "plugins" -> k <> "is_using_default_value" ->
     (consolidate_args_over ps args).2 !! k = Some v -> args !! k = Some v)
  /\ (forall e,
        (consolidate_args_over ps args).1 = inl e ->
        (consolidate_args_over ps args).2 ⊆ args).
Proof.
  destruct (consolidate_args_over ps args) as [r args'] eqn:Hrun. cbn [fst snd].
  revert Hrun. unfold consolidate_args_over, hasattr.
  unfold mbind at 1, Py_mbind, Py_bind.
  destruct (bool_decide (is_Some (args !! "hex_limit"))); cbn [negb].
  2:{ intros [= <- <-]. split; [auto | done]. }
  unfold mbind at 1, Py_mbind, Py_bind.
  destruct (for_each consolidate_plugin ps ([], []) args)
    as [[e|[active ud]] args1] eqn:Hloop;
    apply shrinking_plugin_loop in Hloop.
  - intros [= <- <-]. split; [|done]. intros k v _ _ Hk. by apply (lookup_weaken args1).
  - unfold mbind, Py_mbind, Py_bind, setattr. intros [= <- <-]. split; [|done].
    intros k v H1 H2. rewrite !lookup_insert_ne by done.
    intros Hk. by apply (lookup_weaken args1).
Qed.

(** ** When consolidation completes *)

Lemma plugin_step_runnable (p : PluginDescriptor) (args0 args : namespace)
    (active ud : pydict) :
  Forall pair_entry (related_args p) ->
  NoDup (plugin_names p) ->
  (forall k, k ∈ plugin_names p -> args !! k = args0 !! k) ->
  runnable_plugin args0 p ->
  classname p ∉ dict_keys active ->
  (forall k, k ∈ related_names p -> k ∉ dict_keys ud) ->
  consolidate_plugin p (active, ud) args =
    (inr (if is_disabled args0 p then (active, ud)
          else (active ++ [(classname p, VDict (params_of args0 (related_args p)))],
                ud ++ defaults_of args0 (related_args p))),
     delete_all (consumed args0 p) args).
Proof.
  intros Hwf Hnd Hagree [[d Hd] Hrel] Hcls Hud.
  destruct (is_disabled args0 p) eqn:Hdis.
  - unfold consumed. rewrite Hdis. unfold is_disabled in Hdis. rewrite Hd in Hdis.
    rewrite <- (Hagree (disable_arg p)) in Hd by left.
    unfold consolidate_plugin. py_unfold. cbn [_convert_flag_text_to_argument_name].
    fold (disable_arg p). rewrite Hd. cbn [default id] in *. by rewrite Hdis.
  - rewrite (plugin_step p args0 args active ud Hwf Hnd); [by rewrite Hdis | | done | done].
    intros k Hk. rewrite (Hagree k Hk). split; [|done].
    apply elem_of_cons in Hk as [->|Hk]; [by eexists|].
    specialize (Hrel eq_refl). rewrite Forall_forall in Hrel. by apply Hrel.
Qed.

Lemma plugin_loop_runnable (ps : list PluginDescriptor) (args0 : namespace) :
  Forall (fun p => Forall pair_entry (related_args p)) ps ->
  NoDup (catalog_names ps) ->
  NoDup (map classname ps) ->
  runnable ps args0 ->
  forall (args : namespace) (active ud : pydict),
    (forall k, k ∈ catalog_names ps -> args !! k = args0 !! k) ->
    (forall c, c ∈ map classname ps -> c ∉ dict_keys active) ->
    (forall k, k ∈ catalog_names ps -> k ∉ dict_keys ud) ->
    for_each consolidate_plugin ps (active, ud) args =
      (inr (active ++ active_of args0 ps, ud ++ using_of args0 ps),
       delete_all (flat_map (consumed args0) ps) args).
Proof.
  intros Hwf. induction Hwf as [|p ps Hp _ IH];
    intros Hnd Hcn Hrun args active ud Hagree Hact Hud.
  - simpl. by rewrite !app_nil_r.
  - unfold catalog_names in *. cbn [flat_map map] in *.
    apply NoDup_app in Hnd as (Hndp & Hdisj & Hnd).
    apply NoDup_cons in Hcn as [Hc Hcn].
    apply Forall_cons in Hrun as [Hrunp Hrun].
    cbn [for_each]. unfold mbind at 1, Py_mbind, Py_bind.
    rewrite (plugin_step_runnable p args0 args active ud Hp Hndp); [| |done| |].
    2:{ intros k Hk. apply Hagree, elem_of_app. by left. }
    2:{ apply Hact. left. }
    2:{ intros k Hk. apply Hud, elem_of_app. left. by right. }
    assert (Hagree' : forall k, k ∈ flat_map plugin_names ps ->
              delete_all (consumed args0 p) args !! k = args0 !! k).
    { intros k Hk. rewrite lookup_delete_all.
      rewrite decide_False by (intros Hin%consumed_sub; by apply (Hdisj k)).
      apply Hagree, elem_of_app. by right. }
    rewrite delete_all_app.
    unfold active_of, using_of, enabled. cbn [filter list_filter].
    destruct (is_disabled args0 p) eqn:Hdis.
    + rewrite decide_False by done.
      apply IH; try done.
      * intros c Hc'. apply Hact. by right.
      * intros k Hk. apply Hud, elem_of_app. by right.
    + rewrite decide_True by done. cbn [map flat_map].
      rewrite IH; try done.
      * by rewrite <- !app_assoc.
      * intros c Hc'. rewrite dict_keys_app, not_elem_of_app. split.
        -- apply Hact. by right.
        -- cbn. rewrite not_elem_of_cons. split; [by intros -> | apply not_elem_of_nil].
      * intros k Hk. rewrite dict_keys_app, not_elem_of_app. split.
        -- apply Hud, elem_of_app. by right.
        -- intros Hin%dict_keys_defaults_of. apply (Hdisj k); [by right | done].
Qed.

Lemma related_loop_returns es locals (args : namespace) locals' args' :
  Forall pair_entry es ->
  for_each consolidate_related_arg es locals args = (inr locals', args') ->
  Forall (fun k => is_Some (args !! k)) (map entry_arg es).
Proof.
  intros Hwf. revert locals args.
  induction Hwf as [|e es [flag [dflt ->]] _ IH]; intros locals args; [constructor|].
  cbn [for_each map]. unfold mbind, Py_mbind, Py_bind.
  destruct (consolidate_related_arg (VTuple [VStr flag; dflt]) locals args)
    as [[exn|locals1] args1] eqn:Hstep; [done|].
  intros Hrest. constructor.
  - revert Hstep. destruct locals as [ra ud].
    unfold consolidate_related_arg, unpack_related_arg. cbn [unpack_pair entry_arg].
    py_unfold. cbn [_convert_flag_text_to_argument_name].
    destruct (args !! argument_name flag); [by eexists | done].
  - apply shrinking_consolidate_related_arg in Hstep.
    eapply Forall_impl; [by apply (IH _ _ Hrest)|].
    intros k [v Hv]. exists v. by apply (lookup_weaken args1).
Qed.

Lemma plugin_returns_runnable p locals (args : namespace) locals' args' :
  Forall pair_entry (related_args p) ->
  consolidate_plugin p locals args = (inr locals', args') ->
  runnable_plugin args p.
Proof.
  intros Hwf. destruct locals as [active ud].
  unfold consolidate_plugin, runnable_plugin, is_disabled. py_unfold.
  cbn [_convert_flag_text_to_argument_name]. fold (disable_arg p).
  destruct (args !! disable_arg p) as [d|] eqn:Hd; [|done].
  cbn [default id]. destruct (truthy d); [by split; [eexists|]|].
  destruct (for_each consolidate_related_arg (related_args p) ([], ud)
              (delete (disable_arg p) args)) as [[exn|locals1] args1] eqn:Hloop; [done|].
  intros _. split; [by eexists|]. intros _.
  eapply Forall_impl; [by apply (related_loop_returns _ _ _ _ _ Hwf Hloop)|].
  intros k [v Hv]. exists v.
  by apply (lookup_weaken (delete (disable_arg p) args)); [|apply delete_subseteq].
Qed.

Lemma runnable_plugin_weaken (args1 args : namespace) p :
  args1 ⊆ args -> runnable_plugin args1 p -> runnable_plugin args p.
Proof.
  intros Hsub [[d Hd] Hrel].
  assert (Hd' : args !! disable_arg p = Some d) by (by apply (lookup_weaken args1)).
  split; [by eexists|]. unfold is_disabled in *. rewrite Hd'. rewrite Hd in Hrel.
  intros Hen. eapply Forall_impl; [by apply Hrel|].
  intros k [v Hv]. exists v. by apply (lookup_weaken args1).
Qed.

Lemma plugin_loop_returns_runnable ps locals (args : namespace) locals' args' :
  Forall (fun p => Forall pair_entry (related_args p)) ps ->
  for_each consolidate_plugin ps locals args = (inr locals', args') ->
  runnable ps args.
Proof.
  intros Hwf. revert locals args.
  induction Hwf as [|p ps Hp _ IH]; intros locals args; [constructor|].
  cbn [for_each]. unfold mbind, Py_mbind, Py_bind.
  destruct (consolidate_plugin p locals args) as [[exn|locals1] args1] eqn:Hstep; [done|].
  intros Hrest. constructor.
  - by apply (plugin_returns_runnable _ _ _ _ _ Hp Hstep).
  - apply shrinking_consolidate_plugin in Hstep.
    eapply Forall_impl; [by apply (IH _ _ Hrest)|].
    intros q. by apply runnable_plugin_weaken.
Qed.

Lemma runnable_closed_form (args : namespace) :
  is_Some (args !! "hex_limit") ->
  runnable all_plugins args ->
  consolidate_args args =
    (inr tt,
     <["is_using_default_value" := VDict (using_of args all_plugins)]>
       (<["plugins" := VDict (active_of args all_plugins)]>
          (delete_all (flat_map (consumed args) all_plugins) args))).
Proof.
  intros Hcanary Hrun. destruct all_plugins_wf as [Hwf Hnd Hcn _ _].
  unfold consolidate_args, consolidate_args_over. py_unfold.
  rewrite bool_decide_eq_true_2 by done. cbn [negb].
  rewrite (plugin_loop_runnable all_plugins args Hwf Hnd Hcn Hrun); [done|done| |].
  - intros c _. apply not_elem_of_nil.
  - intros k _. apply not_elem_of_nil.
Qed.

Lemma returns_runnable (args args' : namespace) :
  is_Some (args !! "hex_limit") ->
  consolidate_args args = (inr tt, args') ->
  runnable all_plugins args.
Proof.
  intros Hcanary. unfold consolidate_args, consolidate_args_over, hasattr.
  unfold mbind at 1, Py_mbind, Py_bind.
  rewrite bool_decide_eq_true_2 by done. cbn [negb].
  unfold mbind at 1, Py_mbind, Py_bind.
  destruct (for_each consolidate_plugin all_plugins ([], []) args)
    as [[exn|locals] args1] eqn:Hloop; [done|].
  intros _. by apply (plugin_loop_returns_runnable _ _ _ _ _
                        (wf_entries _ all_plugins_wf) Hloop).
Qed.

(** With the canary present, consolidation returns exactly on the
    namespaces that hold the disable flag of every descriptor and the
    related arguments of every descriptor they do not disable; on any
    other it raises. *)
Theorem consolidate_args_returns_iff (args : namespace) :
  is_Some (args !! "hex_limit") ->
  (exists args', consolidate_args args = (inr tt, args')) <-> runnable all_plugins args.
Proof.
  intros Hcanary. split.
  - intros [args' Hrun]. by apply (returns_runnable args args').
  - intros Hrun. eexists. by apply runnable_closed_form.
Qed.

(** Every run that gets past the canary and returns leaves the closed
    form: the consumed attributes removed, [plugins] and
    [is_using_default_value] attached, whatever else the namespace holds
    or lacks. *)
Theorem consolidate_args_complete_run (args args' : namespace) :
  is_Some (args !! "hex_limit") ->
  consolidate_args args = (inr tt, args') ->
  args' =
    <["is_using_default_value" := VDict (using_of args all_plugins)]>
      (<["plugins" := VDict (active_of args all_plugins)]>
         (delete_all (flat_map (consumed args) all_plugins) args)).
Proof.
  intros Hcanary Hrun.
  pose proof (runnable_closed_form args Hcanary (returns_runnable args args' Hcanary Hrun)) as H.
  congruence.
Qed.

(** ** Consolidating twice *)

Lemma no_canary_returns ps (args : namespace) :
  args !! "hex_limit" = None -> consolidate_args_over ps args = (inr tt, args).
Proof.
  intros Hnone. unfold consolidate_args_over. py_unfold.
  rewrite bool_decide_eq_false_2; [done|]. rewrite Hnone. by intros [? ?].
Qed.

(** Consolidation is not made to run twice.  After a run that returned,
    a second run on the namespace it left returns at once and changes
    nothing when the hex detector was enabled, because its limit, the
    canary, was consumed; when the hex detector was disabled the canary is
    still there, the disable flag is not, and the second run raises
    [AttributeError]. *)
Theorem consolidate_args_twice (args args' : namespace) :
  is_Some (args !! "hex_limit") ->
  consolidate_args args = (inr tt, args') ->
  consolidate_args args' =
    if truthy (default (VBool false) (args !! "no_hex_string_scan"))
    then (inl AttributeError, args')
    else (inr tt, args').
Proof.
  intros Hcanary Hrun.
  pose proof (returns_runnable args args' Hcanary Hrun) as Hrunnable.
  rewrite (runnable_closed_form args Hcanary Hrunnable) in Hrun.
  injection Hrun as <-.
  set (hex := PluginDescriptor_new "HexHighEntropyString" "--no-hex-string-scan"
                "Disables scanning for hex high entropy strings"
                (Some [VTuple [VStr "--hex-limit"; VInt 3]])).
  assert (Hhex : hex ∈ all_plugins) by left.
  change (truthy (default (VBool false) (args !! "no_hex_string_scan")))
    with (is_disabled args hex).
  destruct (is_disabled args hex) eqn:Hdis.
  - unfold consolidate_args, consolidate_args_over, hasattr.
    unfold mbind at 1, Py_mbind, Py_bind.
    rewrite bool_decide_eq_true_2.
    2:{ rewrite consolidated_lookup by done. rewrite decide_False; [done|].
        rewrite (consumed_all_disabled _ _ all_plugins_wf hex) by (done || (right; left)).
        done. }
    cbn [negb]. unfold mbind at 1, Py_mbind, Py_bind.
    change all_plugins with (hex :: tl all_plugins). cbn [for_each].
    unfold mbind at 1, Py_mbind, Py_bind.
    rewrite plugin_misses_flag; [done|].
    rewrite consolidated_lookup by done. rewrite decide_True; [done|].
    apply (consumed_all_disabled _ _ all_plugins_wf hex); [done | done | left | done].
  - apply no_canary_returns.
    rewrite consolidated_lookup by done. rewrite decide_True; [done|].
    apply (consumed_all_enabled _ _ hex); [done | done | right; left].
Qed.

(** ** The disabled plugins *)

Lemma existsb_eqb_elem_of (item : string) (keys : list string) :
  existsb (String.eqb item) keys = bool_decide (item ∈ keys).
Proof.
  induction keys as [|k keys IH]; cbn [existsb].
  - by rewrite bool_decide_eq_false_2 by apply not_elem_of_nil.
  - rewrite IH. destruct (String.eqb_spec item k) as [->|Hne]; cbn [orb].
    + by rewrite bool_decide_eq_true_2 by left.
    + apply bool_decide_ext. rewrite elem_of_cons.
      split; [by right | by intros [?|?]].
Qed.

Lemma disabled_plugin_loop ps (args : namespace) (d : pydict) (result : list string) :
  args !! "plugins" = Some (VDict d) ->
  for_each disabled_plugin_step ps result args =
    (inr (result ++ filter (fun c => c ∉ dict_keys d) (map classname ps)), args).
Proof.
  intros Hd. revert result. induction ps as [|p ps IH]; intros result.
  - cbn. by rewrite app_nil_r.
  - cbn [for_each map]. unfold mbind at 1, Py_mbind, Py_bind.
    unfold disabled_plugin_step at 1. py_unfold. rewrite Hd.
    cbn [py_contains]. rewrite existsb_eqb_elem_of, IH. rewrite filter_cons.
    destruct (decide (classname p ∈ dict_keys d)) as [Hin|Hnin].
    + rewrite bool_decide_eq_true_2 by done. by rewrite decide_False by auto.
    + rewrite bool_decide_eq_false_2 by done. rewrite decide_True by done.
      by rewrite <- app_assoc.
Qed.

(** [get_disabled_plugins] on a namespace whose [plugins] is a dict: the
    class names of the catalogue that are not keys of the dict, in the
    order of the catalogue, and the namespace is left as it was. *)
Theorem get_disabled_plugins_of_dict (args : namespace) (d : pydict) :
  args !! "plugins" = Some (VDict d) ->
  get_disabled_plugins args =
    (inr (filter (fun c => c ∉ dict_keys d) (map classname all_plugins)), args).
Proof.
  intros Hd. unfold get_disabled_plugins, get_disabled_plugins_over.
  by rewrite (disabled_plugin_loop _ _ d).
Qed.




(** Without consolidation there is nothing to read: on a namespace that
    has no attribute [plugins], as the one of [audit] that consolidation
    returns untouched, [get_disabled_plugins] raises [AttributeError]. *)
Theorem get_disabled_plugins_without_plugins (args : namespace) :
  args !! "hex_limit" = None ->
  args !! "plugins" = None ->
  consolidate_args args = (inr tt, args)
  /\ get_disabled_plugins args = (inl AttributeError, args).
Proof.
  intros Hcanary Hplugins. split; [by apply no_canary_returns|].
  unfold get_disabled_plugins, get_disabled_plugins_over.
  unfold all_plugins. cbn [for_each]. unfold mbind at 1, Py_mbind, Py_bind.
  unfold disabled_plugin_step, getattr. unfold mbind at 1, Py_mbind, Py_bind.
  by rewrite Hplugins.
Qed.

(** ** Argument names *)

Lemma str_replace_length old new s :
  String.length (str_replace old new s) = String.length s.
Proof. induction s as [|c s IH]; cbn; [done | by rewrite IH]. Qed.

Lemma str_replace_removes old new s :
  old <> new -> ~ In old (list_ascii_of_string (str_replace old new s)).
Proof.
  intros Hne. induction s as [|c s IH]; cbn; [tauto|].
  intros [Heq|Hin]; [|tauto].
  destruct (Ascii.eqb_spec c old) as [->|Hc]; congruence.
Qed.

Lemma str_from2_length s : String.length (str_from2 s) = String.length s - 2.
Proof. destruct s as [|c1 [|c2 s]]; cbn; lia. Qed.

(** The name [_convert_flag_text_to_argument_name] gives for a flag holds
    no dash and is two characters shorter than the flag, whatever the two
    characters in front are; a flag of fewer than two characters gives the
    empty name.  Only a string is converted: any other value raises. *)
Theorem convert_flag_text_to_argument_name_shape (flag_text : pyval) :
  match flag_text with
  | VStr s =>
      exists name,
        _convert_flag_text_to_argument_name flag_text = inr name
        /\ ~ In "-"%char (list_ascii_of_string name)
        /\ String.length name = String.length s - 2
  | _ => exists e, _convert_flag_text_to_argument_name flag_text = inl e
  end.
Proof.
  destruct flag_text; try by eexists.
  eexists. split; [done|]. unfold argument_name. split.
  - by apply str_replace_removes.
  - by rewrite str_replace_length, str_from2_length.
Qed.

(** ** Parsing and consolidating *)

Lemma not_runnable_raises (args : namespace) :
  is_Some (args !! "hex_limit") ->
  ~ runnable all_plugins args ->
  exists args', consolidate_args args = (inl AttributeError, args').
Proof.
  intros Hcanary Hnot.
  destruct (consolidate_args args) as [[e|[]] args'] eqn:Hrun.
  - exists args'. f_equal. f_equal.
    revert Hrun. unfold consolidate_args, consolidate_args_over, hasattr.
    unfold mbind at 1, Py_mbind, Py_bind.
    rewrite bool_decide_eq_true_2 by done. cbn [negb].
    unfold mbind at 1, Py_mbind, Py_bind.
    destruct (plugin_loop_outcome all_plugins ([], []) args (wf_entries _ all_plugins_wf))
      as [([active ud] & args1 & Hloop & _)|[args1 Hloop]];
      unfold Py in *; rewrite Hloop; [done | congruence].
  - exfalso. apply Hnot. by apply (returns_runnable args args').
Qed.

(** [parse_args] in full.  An error of the parser is passed on and
    consolidation does not run.  A namespace without the canary is
    returned as the parser made it.  A namespace with the canary is
    returned consolidated when it holds what consolidation reads, and
    otherwise [parse_args] raises [AttributeError]. *)
Theorem parse_args_outcome (parser : list string -> pyexn + namespace)
    (argv : list string) :
  match parser argv with
  | inl e => ParserBuilder.parse_args parser argv = inl e
  | inr output =>
      (output !! "hex_limit" = None ->
       ParserBuilder.parse_args parser argv = inr output)
      /\ (is_Some (output !! "hex_limit") -> runnable all_plugins output ->
          ParserBuilder.parse_args parser argv =
            inr (<["is_using_default_value" := VDict (using_of output all_plugins)]>
                   (<["plugins" := VDict (active_of output all_plugins)]>
                      (delete_all (flat_map (consumed output) all_plugins) output))))
      /\ (is_Some (output !! "hex_limit") -> ~ runnable all_plugins output ->
          ParserBuilder.parse_args parser argv = inl AttributeError)
  end.
Proof.
  unfold ParserBuilder.parse_args.
  destruct (parser argv) as [e|output]; [done|]. split; [|split].
  - intros Hnone. unfold consolidate_args. by rewrite no_canary_returns.
  - intros Hcanary Hrun. by rewrite runnable_closed_form.
  - intros Hcanary Hnot.
    destruct (not_runnable_raises output Hcanary Hnot) as [args' ->]. done.
Qed.

(** ** The grammar and consolidation *)

Lemma opt_out_flags plugins (group : ArgumentGroup) :
  group_flags (_add_opt_out_options_over plugins group)
  = group_flags group ++ map disable_flag_text plugins.
Proof.
  unfold _add_opt_out_options_over, group_flags. revert group.
  induction plugins as [|p plugins IH]; intros group; cbn [fold_left map].
  - by rewrite app_nil_r.
  - rewrite IH. cbn [group_add_argument group_arguments].
    rewrite flat_map_app. cbn. by rewrite <- app_assoc.
Qed.

Lemma add_arguments_flags plugins (group : ArgumentGroup) :
  group_flags (PluginOptions.add_arguments_over plugins group)
  = group_flags group ++ ["--base64-limit"; "--hex-limit"] ++ map disable_flag_text plugins.
Proof.
  unfold PluginOptions.add_arguments_over. rewrite opt_out_flags.
  unfold _add_custom_limits, group_flags. cbn [group_add_argument group_arguments].
  rewrite !flat_map_app. cbn. by rewrite <- !app_assoc.
Qed.

(** What the plugin option group declares is what consolidation reads.
    For a catalogue as the descriptors' comments describe it, whose
    related arguments are the two limits, a namespace that holds an
    attribute for every flag [add_arguments] declares is consolidated
    without an exception. *)
Theorem plugin_group_flags_suffice (ps : list PluginDescriptor) (args : namespace) :
  catalog_wf ps ->
  (forall p k, p ∈ ps -> k ∈ related_names p -> k = "hex_limit" \/ k = "base64_limit") ->
  (forall flag,
     flag ∈ group_flags (PluginOptions.add_arguments_over ps plugins_group) ->
     is_Some (args !! argument_name flag)) ->
  declared ps args
  /\ exists args', consolidate_args_over ps args = (inr tt, args').
Proof.
  intros Hwf Hrel Hflags.
  assert (Hhex : is_Some (args !! "hex_limit")).
  { apply (Hflags "--hex-limit"). rewrite add_arguments_flags.
    apply elem_of_app. right. right. left. }
  assert (Hb64 : is_Some (args !! "base64_limit")).
  { apply (Hflags "--base64-limit"). rewrite add_arguments_flags.
    apply elem_of_app. right. left. }
  assert (Hdecl : declared ps args).
  { unfold declared. rewrite Forall_forall. intros k Hk.
    apply elem_of_flat_map in Hk as (p & Hp & Hk).
    apply elem_of_cons in Hk as [->|Hk].
    - apply Hflags. rewrite add_arguments_flags.
      apply elem_of_app. right. right. right. apply list_elem_of_fmap. by exists p.
    - destruct (Hrel p k Hp Hk) as [-> | ->]; done. }
  split; [done|]. eexists. by apply consolidate_args_over_spec.
Qed.

(** ** More examples *)

Lemma scenario_args_run :
  consolidate_args scenario_args = (inr tt, consolidated_scenario_args).
Proof. vm_compute. reflexivity. Qed.

Lemma scenario_args_canary : is_Some (scenario_args !! "hex_limit").
Proof. by eexists. Qed.

Lemma consolidate_args_returns_iff_witness :
  (exists args', consolidate_args scenario_args = (inr tt, args'))
  <-> runnable all_plugins scenario_args.
Proof. exact (consolidate_args_returns_iff scenario_args scenario_args_canary). Defined.

Lemma consolidate_args_complete_run_witness :
  consolidated_scenario_args =
    <["is_using_default_value" := VDict (using_of scenario_args all_plugins)]>
      (<["plugins" := VDict (active_of scenario_args all_plugins)]>
         (delete_all (flat_map (consumed scenario_args) all_plugins) scenario_args)).
Proof.
  exact (consolidate_args_complete_run scenario_args consolidated_scenario_args
           scenario_args_canary scenario_args_run).
Defined.

Lemma consolidate_args_twice_witness :
  consolidate_args consolidated_scenario_args = (inr tt, consolidated_scenario_args).
Proof.
  exact (consolidate_args_twice scenario_args consolidated_scenario_args
           scenario_args_canary scenario_args_run).
Defined.

Lemma get_disabled_plugins_of_dict_witness :
  get_disabled_plugins consolidated_scenario_args =
    (inr ["Base64HighEntropyString"], consolidated_scenario_args).
Proof.
  exact (get_disabled_plugins_of_dict consolidated_scenario_args
           [ ("HexHighEntropyString", VDict [("hex_limit", VInt 3)]);
             ("PrivateKeyDetector", VDict []);
             ("BasicAuthDetector", VDict []);
             ("KeywordDetector", VDict []);
             ("AWSKeyDetector", VDict []);
             ("SlackDetector", VDict []) ]
           eq_refl).
Defined.


Lemma get_disabled_plugins_without_plugins_witness :
  consolidate_args audit_args = (inr tt, audit_args)
  /\ get_disabled_plugins audit_args = (inl AttributeError, audit_args).
Proof. exact (get_disabled_plugins_without_plugins audit_args eq_refl eq_refl). Defined.

Lemma plugin_group_flags_suffice_witness :
  declared all_plugins scenario_args
  /\ exists args', consolidate_args_over all_plugins scenario_args = (inr tt, args').
Proof.
  apply (plugin_group_flags_suffice all_plugins scenario_args all_plugins_wf).
  - intros p k Hp Hk.
    assert (Hcat : k ∈ filter (fun k => k ∈ flat_map related_names all_plugins)
                     (catalog_names all_plugins)).
    { apply list_elem_of_filter. split.
      - apply elem_of_flat_map. by exists p.
      - apply elem_of_flat_map. exists p. split; [done | by right]. }
    vm_compute in Hcat.
    apply elem_of_cons in Hcat as [->|Hcat]; [by left|].
    apply elem_of_cons in Hcat as [->|Hcat]; [by right|].
    by apply elem_of_nil in Hcat.
  - intros flag Hflag.
    assert (Hall : Forall (fun flag => is_Some (scenario_args !! argument_name flag))
                     (group_flags (PluginOptions.add_arguments_over all_plugins plugins_group)))
      by (by apply (bool_decide_unpack _)).
    rewrite Forall_forall in Hall. by apply Hall.
Defined.
